(** * nexBox updater: the curses front-end [nexsoft_update_tui.py]

    A shallow embedding of the UI state ([UIState]), the key handler
    ([TUI.handle_input]), the job runner ([TUI.start_job] and its worker
    [_run]) and one iteration of the event loop ([run]), followed by the
    properties of the state machine and of the job runner. Of the drawing
    code the arithmetic is embedded (the colour pair, the rows of the log
    lines, the box of the edit popup), and of the probes [detect_serial],
    over what the host lets it read. *)

From Stdlib Require Import ZArith Ascii String List Lia Permutation.
From stdpp Require Import base gmap strings list pretty.
Import ListNotations.

Local Open Scope string_scope.
Local Open Scope list_scope.
Local Open Scope Z_scope.

(** ** Python values and exceptions *)

(** The exceptions that the modelled code can raise. None of them is caught
    by [run], so a raised exception ends the program. *)
Inductive exn : Type :=
| IndexError
| KeyError (k : string).

(** Computations that either raise or return. *)
Definition py (A : Type) : Type := exn + A.

Definition raise {A} (e : exn) : py A := inl e.

#[global] Instance py_ret : MRet py := fun A a => inr a.
#[global] Instance py_bind : MBind py := fun A B k m =>
  match m with
  | inl e => inl e
  | inr a => k a
  end.

(** [l[i]] on a Python list; a negative [i] counts from the end. *)
Definition py_index {A} (l : list A) (i : Z) : py A :=
  let n := Z.of_nat (length l) in
  let j := if i <? 0 then n + i else i in
  if j <? 0 then raise IndexError
  else match l !! Z.to_nat j with
       | Some a => mret a
       | None => raise IndexError
       end.

(** [l[-n:]] for a positive [n]: the last [n] items, or all of [l]. *)
Definition py_last_n {A} (n : nat) (l : list A) : list A :=
  drop (length l - n)%nat l.

(** A text is held as its UTF-8 bytes. A byte 10xxxxxx continues a
    character; any other byte starts one. *)
Definition is_continuation (c : ascii) : bool :=
  match c with
  | Ascii _ _ _ _ _ _ b6 b7 => b7 && negb b6
  end.

(** No byte of [s] starts a character. *)
Fixpoint all_continuation (s : string) : bool :=
  match s with
  | EmptyString => true
  | String c rest => is_continuation c && all_continuation rest
  end.

(** [s[:-1]]: the text without its last character, that is without the
    last byte that starts a character and the bytes that continue it. *)
Fixpoint py_drop_last (s : string) : string :=
  match s with
  | EmptyString => EmptyString
  | String c rest =>
      if all_continuation rest then EmptyString
      else String c (py_drop_last rest)
  end.

(** [a or b] on strings. *)
Definition py_or (a b : string) : string :=
  if String.eqb a "" then b else a.

(** Truth value of a string. *)
Definition py_truthy (s : string) : bool := negb (String.eqb s "").

(** [s.rstrip('\n')]. *)
Definition newline : ascii := ascii_of_nat 10.

Fixpoint rstrip_nl (s : string) : string :=
  match s with
  | EmptyString => EmptyString
  | String c rest =>
      match rstrip_nl rest with
      | EmptyString => if Ascii.eqb c newline then EmptyString else String c EmptyString
      | r => String c r
      end
  end.

(** ** UIState *)

Inductive Mode : Type := neutral | work | ok.

(** A [subprocess.Popen] handle, named by its process id. *)
Definition Popen : Type := nat.

Record UIState : Type := mkUIState {
  theme_dark : bool;
  mode : Mode;
  message : string;
  env : gmap string string;
  flags : list (string * bool);
  field_index : Z;
  edit_mode : bool;
  input_buffer : string;
  logs : list string;
  proc : option Popen;
}.

(** What the program reads from outside in one step: the clock, the serial
    number probe, the liveness of a process handle and the key read by the
    quit prompt. *)
Record World : Type := mkWorld {
  now : string;
  detect_serial : string;
  detect_download_url_from_sh : string;
  poll : Popen -> option Z;
  confirm_getch : Z;
  SCRIPT_PATH : string;
  os_environ : gmap string string;
}.

Definition set_theme_dark (b : bool) (st : UIState) : UIState :=
  mkUIState b (mode st) (message st) (env st) (flags st) (field_index st)
    (edit_mode st) (input_buffer st) (logs st) (proc st).
Definition set_mode_field (m : Mode) (st : UIState) : UIState :=
  mkUIState (theme_dark st) m (message st) (env st) (flags st) (field_index st)
    (edit_mode st) (input_buffer st) (logs st) (proc st).
Definition set_message (s : string) (st : UIState) : UIState :=
  mkUIState (theme_dark st) (mode st) s (env st) (flags st) (field_index st)
    (edit_mode st) (input_buffer st) (logs st) (proc st).
Definition set_env (e : gmap string string) (st : UIState) : UIState :=
  mkUIState (theme_dark st) (mode st) (message st) e (flags st) (field_index st)
    (edit_mode st) (input_buffer st) (logs st) (proc st).
Definition set_flags (f : list (string * bool)) (st : UIState) : UIState :=
  mkUIState (theme_dark st) (mode st) (message st) (env st) f (field_index st)
    (edit_mode st) (input_buffer st) (logs st) (proc st).
Definition set_field_index (i : Z) (st : UIState) : UIState :=
  mkUIState (theme_dark st) (mode st) (message st) (env st) (flags st) i
    (edit_mode st) (input_buffer st) (logs st) (proc st).
Definition set_edit_mode (b : bool) (st : UIState) : UIState :=
  mkUIState (theme_dark st) (mode st) (message st) (env st) (flags st) (field_index st)
    b (input_buffer st) (logs st) (proc st).
Definition set_input_buffer (s : string) (st : UIState) : UIState :=
  mkUIState (theme_dark st) (mode st) (message st) (env st) (flags st) (field_index st)
    (edit_mode st) s (logs st) (proc st).
Definition set_logs (l : list string) (st : UIState) : UIState :=
  mkUIState (theme_dark st) (mode st) (message st) (env st) (flags st) (field_index st)
    (edit_mode st) (input_buffer st) l (proc st).
Definition set_proc (p : option Popen) (st : UIState) : UIState :=
  mkUIState (theme_dark st) (mode st) (message st) (env st) (flags st) (field_index st)
    (edit_mode st) (input_buffer st) (logs st) p.

(** [UIState.log]: stamp the line, append it, keep the last 500 lines. *)
Definition stamp (ts line : string) : string := "[" +:+ ts +:+ "] " +:+ line.

Definition log (ts line : string) (st : UIState) : UIState :=
  set_logs (py_last_n 500 (logs st ++ [stamp ts line])) st.

(** [UIState.set_mode]: the message changes only for a non-empty [msg]. *)
Definition set_mode (m : Mode) (msg : string) (st : UIState) : UIState :=
  let st := set_mode_field m st in
  if py_truthy msg then set_message msg st else st.

(** A run of [log] calls, each with its own clock reading. *)
Definition log_all (appends : list (string * string)) (st : UIState) : UIState :=
  fold_left (fun s a => log (fst a) (snd a) s) appends st.

(** ** Dictionaries with insertion order ([UIState.flags]) *)

Fixpoint dict_get {V} (k : string) (d : list (string * V)) : option V :=
  match d with
  | [] => None
  | (k', v) :: rest => if String.eqb k k' then Some v else dict_get k rest
  end.

(** [d[k]] *)
Definition dict_getitem {V} (k : string) (d : list (string * V)) : py V :=
  match dict_get k d with
  | Some v => mret v
  | None => raise (KeyError k)
  end.

(** [d[k] = v]: an existing key keeps its place, a new key goes last. *)
Fixpoint dict_set {V} (k : string) (v : V) (d : list (string * V)) : list (string * V) :=
  match d with
  | [] => [(k, v)]
  | (k', v') :: rest =>
      if String.eqb k k' then (k', v) :: rest else (k', v') :: dict_set k v rest
  end.

(** [l.index(x)]: the first position of [x]; [None] stands for ValueError. *)
Fixpoint py_list_index (x : string) (l : list string) : option nat :=
  match l with
  | [] => None
  | y :: rest => if String.eqb x y then Some 0%nat else S <$> py_list_index x rest
  end.

(** ** Keys *)

Definition ord (c : ascii) : Z := Z.of_nat (nat_of_ascii c).
Definition chr (ch : Z) : ascii := ascii_of_nat (Z.to_nat ch).

(** Key codes of ncurses ([curses.KEY_*]). *)
Definition KEY_DOWN : Z := 258.
Definition KEY_UP : Z := 259.
Definition KEY_LEFT : Z := 260.
Definition KEY_RIGHT : Z := 261.
Definition KEY_BACKSPACE : Z := 263.
Definition KEY_F5 : Z := 269.
Definition KEY_ENTER : Z := 343.

(** [ch in (k1, k2, ...)] *)
Definition key_in (ch : Z) (keys : list Z) : bool := existsb (Z.eqb ch) keys.

(** ** TUI *)

Definition fields_order : list (string * string) :=
  [ ("DOWNLOAD_URL", "Download URL");
    ("DOWNLOAD_REFERER", "HTTP Referer (optional)");
    ("SERVICE_NAME", "Service name");
    ("TARGET_DIR", "Target dir");
    ("SERIAL_DEV", "Serial device");
    ("SERIAL_BAUD", "Serial baud");
    ("SERIAL_NUMBER", "Product Serial Number");
    ("TIMESHIFT_SCRIPT", "Timeshift script path");
    ("SERVICE_START_TIMEOUT", "Service start timeout (s)");
    ("SERVICE_POST_START_WAIT", "Post-start log delay (s)");
    ("SERVICE_LOG_LOOKBACK", "Log lookback (s w/o restart)");
    ("WEBMIN_HTTP_TIMEOUT", "Webmin HTTP timeout (s)") ].

Definition toggle_order : list (string * string) :=
  [ ("ENABLE_RS232_TEST", "RS232 loopback test");
    ("ENABLE_RS232_MODEM", "RS232 modem-lines test");
    ("NO_UPDATE", "Skip update (QC only)");
    ("NO_TIMESHIFT", "Disable Timeshift snapshot");
    ("CLEAR_LOGS", "Clear journald before restart");
    ("NO_NEXSOFT_BKP", "Skip /opt/nexSoft backup");
    ("REMOVE_STATIC_IP_SERVICE", "Remove add-static-ip.service");
    ("ENABLE_SECONDARY_IP_SERVICE", "Enable secondary-ip.service");
    ("OVERWRITE_IDS", "Overwrite existing IDs");
    ("NON_INTERACTIVE", "Non-interactive prompts") ].

Definition len {A} (l : list A) : Z := Z.of_nat (length l).

(** [total_items] of [handle_input]: the fields, the flags and "Start". *)
Definition total_items : Z := len fields_order + len toggle_order + 1.

(** [flags[key] = not flags[key]] *)
Definition toggle_flag (key : string) (d : list (string * bool))
  : py (list (string * bool)) :=
  v ← dict_getitem key d;
  mret (dict_set key (negb v) d).

(** What [handle_input] returns besides [None]. *)
Inductive Action : Type := quit | start.

(** [not self.state.env.get('SERIAL_NUMBER')] *)
Definition serial_missing (st : UIState) : bool :=
  match env st !! "SERIAL_NUMBER" with
  | Some v => negb (py_truthy v)
  | None => true
  end.

(** The block that both start triggers of [handle_input] run when the serial
    number is missing: set the message, focus the field, open the editor
    with a fresh guess. *)
Definition require_serial (w : World) (st : UIState) : UIState :=
  let st := set_message "Product Serial Number is required." st in
  match py_list_index "SERIAL_NUMBER" (map fst fields_order) with
  | Some idx_sn =>
      let st := set_field_index (Z.of_nat idx_sn) st in
      let st := set_input_buffer (py_or (detect_serial w) "") st in
      set_edit_mode true st
  | None => st
  end.

(** [TUI._confirm_quit], without the drawing of the prompt. *)
Definition _confirm_quit (w : World) (st : UIState) : bool :=
  match proc st with
  | Some p =>
      match poll w p with
      | None => key_in (confirm_getch w) [ord "y"; ord "Y"]
      | Some _ => true
      end
  | None => true
  end.

(** [TUI.handle_input]; [ch] is what [getch] returned. *)
Definition handle_input (w : World) (ch : Z) (st : UIState)
  : py (UIState * option Action) :=
  if ch =? -1 then mret (st, None) else
  if key_in ch [ord "t"; ord "T"] && negb (edit_mode st) then
    mret (set_theme_dark (negb (theme_dark st)) st, None)
  else if key_in ch [ord "q"; 27] && negb (edit_mode st) then
    if _confirm_quit w st then mret (st, Some quit) else mret (st, None)
  else if key_in ch [KEY_F5; ord "s"] && negb (edit_mode st) then
    if serial_missing st then mret (require_serial w st, None)
    else mret (st, Some start)
  else if key_in ch [KEY_UP; ord "k"] && negb (edit_mode st) then
    mret (set_field_index ((field_index st - 1) `mod` total_items) st, None)
  else if key_in ch [KEY_DOWN; ord "j"] && negb (edit_mode st) then
    mret (set_field_index ((field_index st + 1) `mod` total_items) st, None)
  else if key_in ch [KEY_LEFT; KEY_RIGHT] && negb (edit_mode st) then
    if field_index st >=? len fields_order then
      let i := field_index st - len fields_order in
      entry ← py_index toggle_order i;
      let key := fst entry in
      fl ← toggle_flag key (flags st);
      mret (set_flags fl st, None)
    else mret (st, None)
  else if key_in ch [KEY_ENTER; 10; 13] && negb (edit_mode st) then
    if field_index st =? len fields_order + len toggle_order then
      if serial_missing st then mret (require_serial w st, None)
      else mret (st, Some start)
    else
      entry ← py_index fields_order (field_index st);
      let key := fst entry in
      let st := set_input_buffer (default "" (env st !! key)) st in
      mret (set_edit_mode true st, None)
  else if edit_mode st then
    if key_in ch [27] then mret (set_edit_mode false st, None)
    else if key_in ch [10; 13] then
      entry ← py_index fields_order (field_index st);
      let key := fst entry in
      let st := set_env (<[key := input_buffer st]> (env st)) st in
      mret (set_edit_mode false st, None)
    else if key_in ch [KEY_BACKSPACE; 127; 8] then
      mret (set_input_buffer (py_drop_last (input_buffer st)) st, None)
    else if (32 <=? ch) && (ch <=? 126) then
      mret (set_input_buffer (input_buffer st +:+ String (chr ch) "") st, None)
    else mret (st, None)
  else mret (st, None).

(** ** The job runner *)

(** What the worker thread of [start_job] is given: the argument vector and
    the environment of the process to spawn. *)
Record Job : Type := mkJob {
  job_args : list string;
  job_env : gmap string string;
}.

Definition flag_env (v : bool) : string := if v then "1" else "0".

(** The environment of the child: [os.environ], updated with the fields,
    then with one entry per flag. *)
Definition start_job_env (w : World) (st : UIState) : gmap string string :=
  let env0 := env st ∪ os_environ w in
  fold_left (fun e kv => <[fst kv := flag_env (snd kv)]> e) (flags st) env0.

(** The argument vector of the child, [SCRIPT_PATH] first. *)
Definition start_job_args (w : World) (st : UIState) : py (list string) :=
  let args := [SCRIPT_PATH w] in
  f ← dict_getitem "ENABLE_RS232_TEST" (flags st);
  let args := args ++ [if f : bool then "--enable-rs232-test" else "--disable-rs232-test"] in
  f ← dict_getitem "NO_UPDATE" (flags st);
  let args := if f : bool then args ++ ["--no-update"] else args in
  f ← dict_getitem "NO_TIMESHIFT" (flags st);
  let args := if f : bool then args ++ ["--no-timeshift"] else args in
  f ← dict_getitem "CLEAR_LOGS" (flags st);
  let args := if f : bool then args ++ ["--clear-logs"] else args in
  f ← dict_getitem "NO_NEXSOFT_BKP" (flags st);
  let args := if f : bool then args ++ ["--no-nexSoft-bkp"] else args in
  f ← dict_getitem "REMOVE_STATIC_IP_SERVICE" (flags st);
  let args := args ++ [if f : bool then "--remove-static-ip-service" else "--keep-static-ip-service"] in
  f ← dict_getitem "ENABLE_SECONDARY_IP_SERVICE" (flags st);
  let args := args ++ [if f : bool then "--enable-secondary-ip-service" else "--disable-secondary-ip-service"] in
  f ← dict_getitem "OVERWRITE_IDS" (flags st);
  let args := if f : bool then args ++ ["--overwrite-ids"] else args in
  f ← dict_getitem "NON_INTERACTIVE" (flags st);
  let args := if f : bool then args ++ ["--non-interactive"] else args in
  mret args.

(** [TUI.start_job]: the new state and the worker thread it starts, if any.
    The process itself is spawned by the worker, see [_run]. *)
Definition start_job (w : World) (st : UIState) : py (UIState * option Job) :=
  if serial_missing st then
    let st := set_mode neutral "Product Serial Number is required." st in
    let st := log (now w) "Refusing to start: missing SERIAL_NUMBER" st in
    mret (st, None)
  else
    let penv := start_job_env w st in
    args ← start_job_args w st;
    let st := set_mode work "Running…" st in
    let st := log (now w) "Starting updater…" st in
    mret (st, Some (mkJob args penv)).

(** What [subprocess.Popen] does with the job. *)
Inductive PopenResult : Type :=
| PopenOk (p : Popen)
| PopenFileNotFound
| PopenException (e : string).

(** How the reading of the output ends: the stream closes and [wait]
    returns [rc], or an exception with text [e] is raised on the way. *)
Inductive StreamEnd : Type :=
| Exited (rc : Z)
| StreamException (e : string).

(** One execution of the worker as the outside decides it: the result of
    the spawn, the lines read (each with the clock reading of its [log]
    call), the end of the stream and the clock reading of the last [log]. *)
Record Execution : Type := mkExecution {
  popen : PopenResult;
  output : list (string * string);
  ending : StreamEnd;
  end_time : string;
}.

Definition on_exception (ts e : string) (st : UIState) : UIState :=
  let st := set_mode neutral ("Exception: " +:+ e) st in
  log ts ("Exception: " +:+ e) st.

(** The state once the output lines have been logged. *)
Definition drain (x : Execution) (st : UIState) : UIState :=
  log_all (map (fun tl => (fst tl, rstrip_nl (snd tl))) (output x)) st.

(** The worker [_run] of [start_job]. *)
Definition _run (w : World) (x : Execution) (st : UIState) : UIState :=
  match popen x with
  | PopenOk p =>
      let st := set_proc (Some p) st in
      let st := drain x st in
      match ending x with
      | Exited rc =>
          if rc =? 0 then
            let st := set_mode ok "Completed successfully" st in
            log (end_time x) "Job finished: OK" st
          else
            let st := set_mode neutral ("Finished with errors (rc=" +:+ pretty rc +:+ ")") st in
            log (end_time x) ("Job finished: ERR rc=" +:+ pretty rc) st
      | StreamException e => on_exception (end_time x) e st
      end
  | PopenFileNotFound =>
      let st := set_mode neutral "Shell script not found. Check SCRIPT_PATH." st in
      log (end_time x) ("ERROR: " +:+ SCRIPT_PATH w +:+ " not found") st
  | PopenException e => on_exception (end_time x) e st
  end.

(** ** The event loop *)

Inductive Iteration : Type :=
| Break (st : UIState)
| Continue (st : UIState) (started : option Job).

(** [state.proc is None or state.proc.poll() is not None] *)
Definition may_start (w : World) (st : UIState) : bool :=
  match proc st with
  | None => true
  | Some p => bool_decide (is_Some (poll w p))
  end.

(** One turn of the [while True] loop of [run], for the key [ch]; the
    drawing of the screen is left out. *)
Definition loop_body (w : World) (ch : Z) (st : UIState) : py Iteration :=
  r ← handle_input w ch st;
  let st := fst r in
  match snd r with
  | Some quit => mret (Break st)
  | Some start =>
      if may_start w st then
        r ← start_job w st;
        mret (Continue (fst r) (snd r))
      else mret (Continue st None)
  | None => mret (Continue st None)
  end.

(** ** The initial state *)

(** [os.environ.get(k, d)] *)
Definition environ_get (w : World) (k d : string) : string :=
  default d (os_environ w !! k).

(** [not d.get(k)] on a dictionary of strings. *)
Definition unset (k : string) (d : gmap string string) : bool :=
  match d !! k with
  | Some v => negb (py_truthy v)
  | None => true
  end.

(** [UIState.__init__] *)
Definition UIState_init (w : World) : UIState :=
  let get k d := (k, environ_get w k d) in
  let e : gmap string string := list_to_map
    [ get "DOWNLOAD_URL" "";
      get "DOWNLOAD_UA" "Mozilla/5.0";
      get "DOWNLOAD_REFERER" "";
      get "SERVICE_NAME" "nexSoft";
      get "TARGET_DIR" "/opt/nexSoft";
      get "TIMESHIFT_SCRIPT" "/opt/scripts/TimeShift_FactorySettings.sh";
      get "STATE_DIR" "/var/lib/nex";
      get "SERVICE_START_TIMEOUT" "20";
      get "SERVICE_POST_START_WAIT" "5";
      get "SERVICE_LOG_LOOKBACK" "300";
      get "WEBMIN_HTTP_TIMEOUT" "5";
      get "NEXSOFT_CERT_DIR" "/opt/nexSoft/cert";
      get "CERT_GROUP" "nexroot";
      get "SERIAL_DEV" "/dev/ttyUSB0";
      get "SERIAL_BAUD" "115200";
      get "SERIAL_TIMEOUT_SEC" "5";
      get "LOOPBACK_BYTES" "64";
      get "SERIAL_NUMBER" "" ] in
  let e := if unset "SERIAL_NUMBER" e
           then <["SERIAL_NUMBER" := detect_serial w]> e else e in
  let e := if unset "DOWNLOAD_URL" e
           then <["DOWNLOAD_URL" := detect_download_url_from_sh w]> e else e in
  {| theme_dark := true;
     mode := neutral;
     message := "Ready";
     env := e;
     flags :=
       [ ("ENABLE_RS232_TEST", true);
         ("ENABLE_RS232_MODEM", false);
         ("NO_TIMESHIFT", false);
         ("NO_UPDATE", false);
         ("CLEAR_LOGS", false);
         ("NO_NEXSOFT_BKP", false);
         ("REMOVE_STATIC_IP_SERVICE", true);
         ("ENABLE_SECONDARY_IP_SERVICE", true);
         ("OVERWRITE_IDS", false);
         ("NON_INTERACTIVE", false) ];
     field_index := 0;
     edit_mode := false;
     input_buffer := "";
     logs := [];
     proc := None |}.

(** Keys handled one after the other, the outside being the same at each. *)
Fixpoint handle_inputs (w : World) (keys : list Z) (st : UIState) : py UIState :=
  match keys with
  | [] => mret st
  | ch :: rest =>
      r ← handle_input w ch st;
      handle_inputs w rest (fst r)
  end.

Definition bare_world : World :=
  {| now := "12:00:00";
     detect_serial := "";
     detect_download_url_from_sh := "";
     poll := fun _ => None;
     confirm_getch := -1;
     SCRIPT_PATH := "/opt/nexsoft_update_qc.sh";
     os_environ := ∅ |}.

(** Flags toggled one after the other. *)
Fixpoint toggle_flags (keys : list string) (d : list (string * bool))
  : py (list (string * bool)) :=
  match keys with
  | [] => mret d
  | k :: rest =>
      d' ← toggle_flag k d;
      toggle_flags rest d'
  end.

(** ** The flag table of the process interface

    The table as the interface description gives it, to compare
    [start_job_args] with: for each flag, in this order, the token for
    true and the token for false, if any. *)
Definition interface_flag_table : list (string * string * option string) :=
  [ ("ENABLE_RS232_TEST", "--enable-rs232-test", Some "--disable-rs232-test");
    ("NO_UPDATE", "--no-update", None);
    ("NO_TIMESHIFT", "--no-timeshift", None);
    ("CLEAR_LOGS", "--clear-logs", None);
    ("NO_NEXSOFT_BKP", "--no-nexSoft-bkp", None);
    ("REMOVE_STATIC_IP_SERVICE", "--remove-static-ip-service", Some "--keep-static-ip-service");
    ("ENABLE_SECONDARY_IP_SERVICE", "--enable-secondary-ip-service", Some "--disable-secondary-ip-service");
    ("OVERWRITE_IDS", "--overwrite-ids", None);
    ("NON_INTERACTIVE", "--non-interactive", None) ].

Definition interface_args (f : string -> bool) : list string :=
  omap (fun row =>
          match row with
          | (k, on, off) => if f k then Some on else off
          end) interface_flag_table.

(** The flag assignment [f] is what the dictionary of [st] holds. *)
Definition flags_are (f : string -> bool) (st : UIState) : Prop :=
  forall k, In k (map fst toggle_order) -> dict_get k (flags st) = Some (f k).

(** RS232 loopback and skip-update on, every other flag off. *)
Definition rs232_and_no_update (k : string) : bool :=
  String.eqb k "ENABLE_RS232_TEST" || String.eqb k "NO_UPDATE".

(** A start is asked for: the start keys, or Enter on "Start". *)
Definition start_trigger (ch : Z) (st : UIState) : bool :=
  key_in ch [KEY_F5; ord "s"]
  || (key_in ch [KEY_ENTER; 10; 13]
      && (field_index st =? len fields_order + len toggle_order)).

(** ** Sample states *)

(** A world in which every process handle reports a running process. *)
Definition live_world : World :=
  {| now := "12:00:00";
     detect_serial := "SN-0001";
     detect_download_url_from_sh := "https://example.org/nexSoft.zip";
     poll := fun _ => None;
     confirm_getch := ord "t";
     SCRIPT_PATH := "/opt/nexsoft_update_qc.sh";
     os_environ := ∅ |}.

(** The initial state of [live_world] once a worker has stored handle 1. *)
Definition live_state : UIState := set_proc (Some 1%nat) (UIState_init live_world).

(** The initial state after toggling NO_UPDATE, REMOVE_STATIC_IP_SERVICE and
    ENABLE_SECONDARY_IP_SERVICE. *)
Definition qc_only_state : UIState :=
  set_flags
    [ ("ENABLE_RS232_TEST", true);
      ("ENABLE_RS232_MODEM", false);
      ("NO_TIMESHIFT", false);
      ("NO_UPDATE", true);
      ("CLEAR_LOGS", false);
      ("NO_NEXSOFT_BKP", false);
      ("REMOVE_STATIC_IP_SERVICE", false);
      ("ENABLE_SECONDARY_IP_SERVICE", false);
      ("OVERWRITE_IDS", false);
      ("NON_INTERACTIVE", false) ]
    (UIState_init live_world).

(** A process that prints two lines and exits with code 2. *)
Definition exit2_execution : Execution :=
  {| popen := PopenOk 7%nat;
     output := [ ("12:00:01", "A" +:+ String newline "");
                 ("12:00:02", "B" +:+ String newline "") ];
     ending := Exited 2;
     end_time := "12:00:03" |}.

(** The initial state after Down, Down, Enter: the editor is open on
    SERVICE_NAME. *)
Definition editing_state : UIState :=
  set_edit_mode true
    (set_input_buffer "nexSoft" (set_field_index 2 (UIState_init live_world))).

(** The initial state after Up: the Start action is selected. *)
Definition start_selected_state : UIState :=
  set_field_index 22 (UIState_init live_world).

(** The initial state after twelve Down: the first flag is selected. *)
Definition flag_selected_state : UIState :=
  set_field_index 12 (UIState_init live_world).

(** An up or down key. *)
Definition nav_key (ch : Z) : bool :=
  key_in ch [KEY_UP; ord "k"; KEY_DOWN; ord "j"].

(** The selection is on one of the items. *)
Definition in_range (st : UIState) : Prop := 0 <= field_index st < total_items.

(** ** Well-formed and reachable states *)

(** What the code relies on without checking it: every flag of
    [toggle_order] is a key of [flags] (else [flags[key]] raises KeyError),
    the keys of [flags] are distinct (it is a dictionary), every field of
    [fields_order] has a value, the selection is on an item, and the editor
    is open on a field only. *)
Record wf (st : UIState) : Prop := mk_wf {
  wf_flags : forall k, In k (map fst toggle_order) -> is_Some (dict_get k (flags st));
  wf_nodup : NoDup (map fst (flags st));
  wf_env : forall k, In k (map fst fields_order) -> is_Some (env st !! k);
  wf_index : 0 <= field_index st < total_items;
  wf_edit : edit_mode st = true -> 0 <= field_index st < len fields_order;
}.

(** The states the program can be in: the initial state, the state after a
    turn of the loop, and the state after one of the writes of a worker
    ([self.state.proc = ...], a [log] call, a [set_mode] call), which may come
    between any two turns. *)
Inductive reachable : UIState -> Prop :=
| reach_init (w : World) : reachable (UIState_init w)
| reach_turn (w : World) (ch : Z) (st st' : UIState) (started : option Job) :
    reachable st ->
    loop_body w ch st = inr (Continue st' started) ->
    reachable st'
| reach_set_proc (p : Popen) (st : UIState) :
    reachable st -> reachable (set_proc (Some p) st)
| reach_log (ts line : string) (st : UIState) :
    reachable st -> reachable (log ts line st)
| reach_set_mode (m : Mode) (msg : string) (st : UIState) :
    reachable st -> reachable (set_mode m msg st).

(** When [handle_input] raises in a well-formed state: outside the editor,
    on Enter with a flag selected, or on left/right with "Start" selected. *)
Definition unhandled (ch : Z) (st : UIState) : Prop :=
  edit_mode st = false /\
  ((key_in ch [KEY_ENTER; 10; 13] = true /\
    len fields_order <= field_index st < len fields_order + len toggle_order) \/
   (key_in ch [KEY_LEFT; KEY_RIGHT] = true /\
    field_index st = len fields_order + len toggle_order)).

(** ** Typing and moving *)

(** [32 <= ch <= 126] *)
Definition printable (ch : Z) : bool := (32 <=? ch) && (ch <=? 126).

(** The text that a run of printable keys spells. *)
Definition text_of_keys (keys : list Z) : string :=
  fold_right (fun ch s => String (chr ch) s) "" keys.

(** The move of the selection that an up or down key asks for. *)
Definition nav_delta (ch : Z) : Z :=
  if key_in ch [KEY_UP; ord "k"] then -1 else 1.

Definition nav_sum (keys : list Z) : Z :=
  fold_right (fun ch s => nav_delta ch + s) 0 keys.

(** ** Strings of newlines *)

(** [n] newline characters. *)
Fixpoint newlines (n : nat) : string :=
  match n with
  | O => ""
  | S n => String newline (newlines n)
  end.

(** The last character of [s] is a newline. *)
Fixpoint ends_with_newline (s : string) : bool :=
  match s with
  | EmptyString => false
  | String c EmptyString => Ascii.eqb c newline
  | String _ rest => ends_with_newline rest
  end.

(** ** Drawing *)

(** [TUI._bg_pair]: the number of the colour pair of the background. *)
Definition _bg_pair (st : UIState) : Z :=
  let dark := theme_dark st in
  match mode st with
  | work => if dark then 7 else 2
  | ok => if dark then 8 else 3
  | neutral => if dark then 6 else 1
  end.

(** [l[start:]] *)
Definition py_slice_from {A} (start : Z) (l : list A) : list A :=
  let n := len l in
  let s := if start <? 0 then Z.max (n + start) 0 else Z.min start n in
  drop (Z.to_nat s) l.

(** [total_lines] and [start_y] of [TUI.draw] on a screen of [h] rows. *)
Definition draw_total_lines : Z := len fields_order + len toggle_order + 7.

Definition draw_start_y (h : Z) : Z := Z.max 1 ((h - draw_total_lines) / 2).

(** The value of [y] where [TUI.draw] computes [max_logs], for the value
    [start_y] it began with: after the heading, the fields, the options, the
    Start action and the status line. The status line is on the row before;
    [draw] gets here only if that row and the rows above are on the
    screen. *)
Definition draw_logs_y (start_y : Z) : Z :=
  let y := start_y in
  let y := y + 2 in
  let y := y + len fields_order in
  let y := y + 1 in
  let y := y + 1 in
  let y := y + len toggle_order in
  let y := y + 1 in
  let y := y + 2 in
  y + 1.

(** [max_logs] and [logs] of [TUI.draw], from the values that [h] and [y]
    have there. *)
Definition draw_max_logs (h y : Z) : Z := h - y - 2.

Definition draw_logs (h y : Z) (st : UIState) : list string :=
  py_slice_from (- draw_max_logs h y) (logs st).

(** The box of [TUI._draw_edit_popup] on a screen of [h] rows and [w]
    columns: [box_w], [box_h], [box_y] and [box_x]. *)
Definition popup_box_w (w : Z) : Z := Z.min 80 (w - 4).
Definition popup_box_h : Z := 5.
Definition popup_box_y (h : Z) : Z := Z.max 1 ((h - popup_box_h) / 2).
Definition popup_box_x (w : Z) : Z := Z.max 2 ((w - popup_box_w w) / 2).

(** ** Detection of the serial number *)

Module Detect.
Section WithStr.

(** [str.strip()], [str.lower()] and [str.upper()] of Python, as functions
    on the text. *)
Variables (strip lower upper : string -> string).

Definition is_quote (c : ascii) : bool :=
  Ascii.eqb c (ascii_of_nat 34) || Ascii.eqb c "'".

Fixpoint lstrip_quotes (s : string) : string :=
  match s with
  | EmptyString => EmptyString
  | String c rest => if is_quote c then lstrip_quotes rest else s
  end.

Fixpoint rstrip_quotes (s : string) : string :=
  match s with
  | EmptyString => EmptyString
  | String c rest =>
      match rstrip_quotes rest with
      | EmptyString => if is_quote c then EmptyString else String c EmptyString
      | r => String c r
      end
  end.

(** [s.strip(q)] for [q] the two quote characters, double and single. *)
Definition strip_quotes (s : string) : string := rstrip_quotes (lstrip_quotes s).

(** [s.split(sep, 1)[1]]: what follows the first [sep]; [None] stands for
    the IndexError on a text without [sep]. *)
Fixpoint after_first (sep : ascii) (s : string) : option string :=
  match s with
  | EmptyString => None
  | String c rest => if Ascii.eqb c sep then Some rest else after_first sep rest
  end.

(** What the probes can read. A file that is absent, or whose reading
    raises, gives no (more) lines: the exception is caught and the next
    source is tried. *)
Record Host : Type := mkHost {
  product_id : list string;
  product_serial : option string;
  cpuinfo : list string;
  environ_serial : option string;
}.

(** The loop over the lines of /etc/dietpi/.product_id. *)
Fixpoint scan_product_id (lines : list string) : option string :=
  match lines with
  | [] => None
  | line :: rest =>
      let line := strip line in
      if negb (py_truthy line) || String.prefix "#" line then scan_product_id rest
      else if String.prefix "SERIAL_NUMBER=" line then
        match after_first "=" line with
        | Some v =>
            let val := strip_quotes (strip v) in
            if py_truthy val then Some val else scan_product_id rest
        | None => None
        end
      else scan_product_id rest
  end.

(** The read of /sys/class/dmi/id/product_serial. *)
Definition read_product_serial (content : option string) : option string :=
  match content with
  | Some text =>
      let val := strip text in
      if py_truthy val && negb (String.eqb (upper val) "UNKNOWN") then Some val
      else None
  | None => None
  end.

(** The loop over the lines of /proc/cpuinfo. *)
Fixpoint scan_cpuinfo (lines : list string) : option string :=
  match lines with
  | [] => None
  | line :: rest =>
      if String.prefix "serial" (lower line) && bool_decide (is_Some (after_first ":" line)) then
        match after_first ":" line with
        | Some v =>
            let val := strip v in
            if py_truthy val then Some val else scan_cpuinfo rest
        | None => None
        end
      else scan_cpuinfo rest
  end.

(** [os.environ.get('SERIAL_NUMBER', '').strip()] *)
Definition read_environ (v : option string) : option string :=
  let val := strip (default "" v) in
  if py_truthy val then Some val else None.

(** [detect_serial] *)
Definition detect_serial (host : Host) : string :=
  match scan_product_id (product_id host) with
  | Some val => val
  | None =>
      match read_product_serial (product_serial host) with
      | Some val => val
      | None =>
          match scan_cpuinfo (cpuinfo host) with
          | Some val => val
          | None =>
              match read_environ (environ_serial host) with
              | Some val => val
              | None => ""
              end
          end
      end
  end.

End WithStr.

(** A stand-in for [str.strip()]: it removes blanks only. *)
Fixpoint lstrip_blanks (s : string) : string :=
  match s with
  | EmptyString => EmptyString
  | String c rest => if Ascii.eqb c " " then lstrip_blanks rest else s
  end.

(** A host with an empty value in the product file and a DMI serial. *)
Definition sample_host : Host :=
  {| product_id := ["# product"; "SERIAL_NUMBER="; "MODEL=nexBox"];
     product_serial := Some " NX-42";
     cpuinfo := ["Serial : 0000"];
     environ_serial := None |}.

End Detect.

(** ** The log buffer *)

Lemma py_last_n_length {A} (n : nat) (l : list A) :
  (length (py_last_n n l) <= n)%nat.
Proof. unfold py_last_n. rewrite length_drop. lia. Qed.

Lemma log_length ts line st : (length (logs (log ts line st)) <= 500)%nat.
Proof. apply py_last_n_length. Qed.

Lemma log_all_length appends : forall st,
  (length (logs st) <= 500)%nat ->
  (length (logs (log_all appends st)) <= 500)%nat.
Proof.
  induction appends as [|[ts line] rest IH]; intros st Hst; [exact Hst|].
  apply IH, log_length.
Qed.

Lemma log_at_capacity ts line st oldest rest :
  logs st = oldest :: rest ->
  length (logs st) = 500%nat ->
  logs (log ts line st) = rest ++ [stamp ts line].
Proof.
  intros Hl Hn. unfold log, py_last_n. cbn [logs set_logs].
  rewrite length_app, Hn. cbn [length].
  replace (500 + 1 - 500)%nat with 1%nat by lia.
  rewrite Hl. reflexivity.
Qed.


(** C5. Whatever lines are logged, the buffer holds at most 500 of them; and
    when it holds exactly 500, one more [log] drops the oldest line only:
    the others stay, in order, followed by the new line. *)
Theorem log_buffer_fifo (appends : list (string * string)) (st : UIState) :
  (length (logs st) <= 500)%nat ->
  (length (logs (log_all appends st)) <= 500)%nat /\
  (length (logs (log_all appends st)) = 500%nat ->
   forall ts line, exists oldest rest,
     logs (log_all appends st) = oldest :: rest /\
     logs (log ts line (log_all appends st)) = rest ++ [stamp ts line]).
Proof.
  intros Hst. split; [now apply log_all_length|].
  intros Hfull ts line.
  destruct (logs (log_all appends st)) as [|oldest rest] eqn:Hl; [discriminate|].
  exists oldest, rest. split; [reflexivity|].
  apply (log_at_capacity ts line _ oldest rest Hl). now rewrite Hl.
Qed.

Lemma log_buffer_fifo_witness :
  let appends := repeat ("12:00:00", "line") 600 in
  let st := UIState_init bare_world in
  (length (logs (log_all appends st)) <= 500)%nat /\
  (length (logs (log_all appends st)) = 500%nat ->
   forall ts line, exists oldest rest,
     logs (log_all appends st) = oldest :: rest /\
     logs (log ts line (log_all appends st)) = rest ++ [stamp ts line]).
Proof.
  intros appends st. apply (log_buffer_fifo appends st). subst st. simpl. lia.
Defined.

(** ** Navigation *)

Lemma total_items_eq : total_items = 23.
Proof. reflexivity. Qed.

Lemma key_in_cases ch keys :
  key_in ch keys = true -> In ch keys.
Proof.
  unfold key_in. rewrite existsb_exists. intros (k & Hin & Hk).
  apply Z.eqb_eq in Hk. now subst.
Qed.

Lemma nav_key_step w ch st :
  nav_key ch = true -> in_range st ->
  exists st', handle_input w ch st = inr (st', None) /\ in_range st'.
Proof.
  intros Hk Hr. apply key_in_cases in Hk.
  assert (Hmod : forall z, 0 <= z `mod` total_items < total_items)
    by (intros z; apply Z.mod_pos_bound; rewrite total_items_eq; lia).
  destruct (edit_mode st) eqn:He;
    repeat (destruct Hk as [<-|Hk]; [|]); try contradiction;
    unfold handle_input; rewrite He; cbn;
    eexists; (split; [reflexivity|]); unfold in_range; cbn; auto.
Qed.

Lemma up_from_first w ch st :
  edit_mode st = false -> field_index st = 0 ->
  key_in ch [KEY_UP; ord "k"] = true ->
  handle_input w ch st = inr (set_field_index (total_items - 1) st, None).
Proof.
  intros He Hi Hk. apply key_in_cases in Hk.
  repeat (destruct Hk as [<-|Hk]; [|]); try contradiction;
    unfold handle_input; rewrite He, Hi; reflexivity.
Qed.

Lemma down_from_last w ch st :
  edit_mode st = false -> field_index st = total_items - 1 ->
  key_in ch [KEY_DOWN; ord "j"] = true ->
  handle_input w ch st = inr (set_field_index 0 st, None).
Proof.
  intros He Hi Hk. apply key_in_cases in Hk.
  repeat (destruct Hk as [<-|Hk]; [|]); try contradiction;
    unfold handle_input; rewrite He, Hi; reflexivity.
Qed.

(** C9. Any run of up/down keys from a state whose selection is in
    [0, total_items) is handled and leaves the selection in that range, where
    [total_items] counts the fields, the flags and the Start action; up on
    the first item selects the last, down on the last selects the first. *)
Theorem selection_stays_in_range (w : World) (keys : list Z) (st : UIState) :
  in_range st ->
  Forall (fun ch => nav_key ch = true) keys ->
  total_items = len fields_order + len toggle_order + 1 /\
  (exists st', handle_inputs w keys st = inr st' /\ in_range st') /\
  (forall ch, edit_mode st = false -> field_index st = 0 ->
     key_in ch [KEY_UP; ord "k"] = true ->
     handle_input w ch st = inr (set_field_index (total_items - 1) st, None)) /\
  (forall ch, edit_mode st = false -> field_index st = total_items - 1 ->
     key_in ch [KEY_DOWN; ord "j"] = true ->
     handle_input w ch st = inr (set_field_index 0 st, None)).
Proof.
  intros Hr Hk. split; [reflexivity|]. split.
  - revert st Hr. induction Hk as [|ch rest Hch _ IH]; intros st Hr.
    + exists st. split; [reflexivity|exact Hr].
    + destruct (nav_key_step w ch st Hch Hr) as (st1 & H1 & Hr1).
      destruct (IH st1 Hr1) as (st' & H' & Hr').
      exists st'. split; [|exact Hr'].
      cbn [handle_inputs]. rewrite H1. exact H'.
  - split; intros ch He Hi Hc.
    + now apply up_from_first.
    + now apply down_from_last.
Qed.

Lemma selection_stays_in_range_witness :
  exists st',
    handle_inputs bare_world [KEY_UP; ord "k"; KEY_DOWN; KEY_DOWN; ord "j"]
      (UIState_init bare_world) = inr st' /\ in_range st'.
Proof.
  refine (proj1 (proj2 (selection_stays_in_range bare_world
            [KEY_UP; ord "k"; KEY_DOWN; KEY_DOWN; ord "j"]
            (UIState_init bare_world) _ _))).
  - unfold in_range. rewrite total_items_eq. cbn. lia.
  - repeat constructor.
Defined.

(** ** Starting a job *)

Lemma py_or_empty (a : string) : py_or a "" = a.
Proof. destruct a; reflexivity. Qed.

Lemma serial_number_is_field :
  fst <$> fields_order !! 6%nat = Some "SERIAL_NUMBER".
Proof. reflexivity. Qed.

Lemma require_serial_eq w st :
  require_serial w st =
  {| theme_dark := theme_dark st; mode := mode st;
     message := "Product Serial Number is required.";
     env := env st; flags := flags st;
     field_index := 6; edit_mode := true;
     input_buffer := detect_serial w;
     logs := logs st; proc := proc st |}.
Proof.
  unfold require_serial. cbn. rewrite py_or_empty. reflexivity.
Qed.

Lemma start_trigger_cases ch st :
  start_trigger ch st = true ->
  In ch [KEY_F5; ord "s"] \/
  (In ch [KEY_ENTER; 10; 13] /\ field_index st = len fields_order + len toggle_order).
Proof.
  unfold start_trigger. intros H.
  apply orb_true_iff in H as [H|H].
  - left. now apply key_in_cases.
  - right. apply andb_true_iff in H as [H1 H2].
    split; [now apply key_in_cases|now apply Z.eqb_eq].
Qed.

(** What [handle_input] does with a start trigger outside the editor. *)
Lemma handle_input_start w ch st :
  edit_mode st = false ->
  start_trigger ch st = true ->
  handle_input w ch st =
  if serial_missing st then inr (require_serial w st, None)
  else inr (st, Some start).
Proof.
  intros He Ht. apply start_trigger_cases in Ht as [Hk|[Hk Hi]].
  - repeat (destruct Hk as [<-|Hk]; [|]); try contradiction;
      unfold handle_input; rewrite He; cbn; destruct (serial_missing st); reflexivity.
  - repeat (destruct Hk as [<-|Hk]; [|]); try contradiction;
      unfold handle_input; rewrite He, Hi; cbn; destruct (serial_missing st); reflexivity.
Qed.

(** C1. With an empty SERIAL_NUMBER, a start trigger (the start keys, or
    Enter on the Start action) starts no worker and so no process: the turn
    of the loop only sets the warning message, selects the SERIAL_NUMBER
    field, fills the input buffer with a fresh probe of the serial number and
    opens the editor. [start_job] itself would refuse as well. *)
Theorem start_without_serial (w : World) (ch : Z) (st : UIState) :
  edit_mode st = false ->
  env st !! "SERIAL_NUMBER" = Some "" ->
  start_trigger ch st = true ->
  loop_body w ch st =
    inr (Continue
           {| theme_dark := theme_dark st; mode := mode st;
              message := "Product Serial Number is required.";
              env := env st; flags := flags st;
              field_index := 6; edit_mode := true;
              input_buffer := detect_serial w;
              logs := logs st; proc := proc st |}
           None) /\
  fst <$> fields_order !! 6%nat = Some "SERIAL_NUMBER" /\
  exists st', start_job w st = inr (st', None).
Proof.
  intros He Hsn Ht.
  assert (Hmiss : serial_missing st = true) by (unfold serial_missing; now rewrite Hsn).
  split; [|split].
  - unfold loop_body.
    rewrite (handle_input_start w ch st He Ht), Hmiss, require_serial_eq.
    reflexivity.
  - reflexivity.
  - unfold start_job. rewrite Hmiss. eexists. reflexivity.
Qed.

Lemma start_without_serial_witness :
  exists st,
    loop_body bare_world KEY_F5 (UIState_init bare_world) = inr (Continue st None)
    /\ edit_mode st = true /\ field_index st = 6.
Proof.
  destruct (start_without_serial bare_world KEY_F5 (UIState_init bare_world))
    as (H & _ & _); [reflexivity|reflexivity|reflexivity|].
  eexists. split; [exact H|]. split; reflexivity.
Defined.

(** ** Re-entrancy *)

Lemma handle_input_start_keeps_state w ch st st1 :
  handle_input w ch st = inr (st1, Some start) -> st1 = st.
Proof.
  unfold handle_input.
  repeat match goal with
         | |- context [if ?c then _ else _] => destruct c
         | |- context [mbind _ ?m] => destruct m; cbn
         | |- context [match ?m with inl _ => _ | inr _ => _ end] => destruct m; cbn
         end; cbn; intros H; try discriminate H; now inversion H.
Qed.

Lemma may_start_spec w st :
  may_start w st = true ->
  proc st = None \/ exists p rc, proc st = Some p /\ poll w p = Some rc.
Proof.
  unfold may_start. destruct (proc st) as [p|]; [|now left].
  intros H. apply bool_decide_eq_true in H as [rc Hrc].
  right. now exists p, rc.
Qed.

Lemma may_start_running w st p :
  proc st = Some p -> poll w p = None -> may_start w st = false.
Proof.
  intros Hp Hl. unfold may_start. rewrite Hp, Hl.
  apply bool_decide_eq_false. intros [rc Hrc]. discriminate Hrc.
Qed.

(** C3. While the handle of a started job is present and still reports
    running, a start action changes nothing: the turn of the loop keeps the
    state, handle included, and starts no worker. A turn of the loop starts a
    worker only when the handle is absent or reports an exit code. *)
Theorem start_suppressed_while_running (w : World) (ch : Z) (st : UIState) :
  (forall p st1,
     proc st = Some p -> poll w p = None ->
     handle_input w ch st = inr (st1, Some start) ->
     loop_body w ch st = inr (Continue st None)) /\
  (forall st' job,
     loop_body w ch st = inr (Continue st' (Some job)) ->
     proc st = None \/ exists p rc, proc st = Some p /\ poll w p = Some rc).
Proof.
  split.
  - intros p st1 Hp Hl Hh.
    pose proof (handle_input_start_keeps_state _ _ _ _ Hh) as ->.
    unfold loop_body. rewrite Hh. cbn.
    now rewrite (may_start_running w st p Hp Hl).
  - intros st' job. unfold loop_body.
    destruct (handle_input w ch st) as [e|[st1 [[]|]]] eqn:Hh; cbn;
      try discriminate.
    pose proof (handle_input_start_keeps_state _ _ _ _ Hh) as ->.
    destruct (may_start w st) eqn:Hm; [|discriminate].
    intros _. now apply may_start_spec.
Qed.

Lemma start_suppressed_while_running_witness :
  loop_body live_world (ord "s") live_state = inr (Continue live_state None).
Proof.
  apply (proj1 (start_suppressed_while_running live_world (ord "s") live_state)
           1%nat live_state); reflexivity.
Defined.

(** ** The argument vector *)

Lemma dict_getitem_of_get {V} k (d : list (string * V)) v :
  dict_get k d = Some v -> dict_getitem k d = inr v.
Proof. intros H. unfold dict_getitem. now rewrite H. Qed.

Lemma start_job_args_table w st f :
  flags_are f st ->
  start_job_args w st = inr (SCRIPT_PATH w :: interface_args f).
Proof.
  intros Hf.
  assert (Hget : forall k, In k (map fst toggle_order) ->
                           dict_getitem k (flags st) = inr (f k))
    by (intros k Hk; apply dict_getitem_of_get, Hf, Hk).
  unfold start_job_args.
  rewrite !Hget by (cbn; tauto).
  unfold interface_args. cbn.
  destruct (f "ENABLE_RS232_TEST"), (f "NO_UPDATE"), (f "NO_TIMESHIFT"),
    (f "CLEAR_LOGS"), (f "NO_NEXSOFT_BKP"), (f "REMOVE_STATIC_IP_SERVICE"),
    (f "ENABLE_SECONDARY_IP_SERVICE"), (f "OVERWRITE_IDS"), (f "NON_INTERACTIVE");
    reflexivity.
Qed.

Lemma dict_get_set_eq {V} k (v : V) d : dict_get k (dict_set k v d) = Some v.
Proof.
  induction d as [|[k' v'] rest IH]; cbn.
  - now rewrite String.eqb_refl.
  - destruct (String.eqb k k') eqn:E; cbn; rewrite E; [reflexivity|exact IH].
Qed.

Lemma dict_get_set_ne {V} k k' (v : V) d :
  k <> k' -> dict_get k (dict_set k' v d) = dict_get k d.
Proof.
  intros Hne. apply String.eqb_neq in Hne.
  induction d as [|[k'' v''] rest IH]; cbn.
  - now rewrite Hne.
  - destruct (String.eqb k' k'') eqn:E; cbn.
    + apply String.eqb_eq in E. subst k''. now rewrite Hne.
    + now rewrite IH.
Qed.

Lemma dict_get_set_is_Some {V} k k' (v : V) d :
  is_Some (dict_get k d) -> is_Some (dict_get k (dict_set k' v d)).
Proof.
  intros H. destruct (decide (k = k')) as [->|Hne].
  - rewrite dict_get_set_eq. now eexists.
  - now rewrite dict_get_set_ne.
Qed.

Lemma dict_set_comm {V} a b (x y : V) d :
  a <> b -> is_Some (dict_get a d) ->
  dict_set a x (dict_set b y d) = dict_set b y (dict_set a x d).
Proof.
  intros Hne. induction d as [|[k v] rest IH]; cbn; intros Ha.
  - destruct Ha as [? Ha]. discriminate Ha.
  - destruct (String.eqb a k) eqn:Eak, (String.eqb b k) eqn:Ebk; cbn;
      rewrite ?Eak, ?Ebk; try reflexivity.
    + apply String.eqb_eq in Eak, Ebk. congruence.
    + f_equal. now apply IH.
Qed.

Lemma toggle_flag_inr k d d' :
  toggle_flag k d = inr d' <->
  exists v, dict_get k d = Some v /\ d' = dict_set k (negb v) d.
Proof.
  unfold toggle_flag, dict_getitem. split.
  - destruct (dict_get k d) as [v|]; cbn; [|discriminate].
    intros H. inversion H. now exists v.
  - intros (v & -> & ->). reflexivity.
Qed.

Lemma toggle_flag_swap a b d d1 d2 :
  toggle_flag a d = inr d1 -> toggle_flag b d1 = inr d2 ->
  exists e, toggle_flag b d = inr e /\ toggle_flag a e = inr d2.
Proof.
  intros H1 H2. destruct (decide (a = b)) as [->|Hne].
  - exists d1. now split.
  - apply toggle_flag_inr in H1 as (va & Ha & ->).
    apply toggle_flag_inr in H2 as (vb & Hb & ->).
    rewrite dict_get_set_ne in Hb by congruence.
    exists (dict_set b (negb vb) d). split.
    + apply toggle_flag_inr. now exists vb.
    + apply toggle_flag_inr. exists va. split.
      * now rewrite dict_get_set_ne by congruence.
      * symmetry. apply dict_set_comm; [exact Hne|now exists va].
Qed.

Lemma toggle_flags_cons k ks d d' :
  toggle_flags (k :: ks) d = inr d' <->
  exists d1, toggle_flag k d = inr d1 /\ toggle_flags ks d1 = inr d'.
Proof.
  cbn [toggle_flags]. destruct (toggle_flag k d) as [e|d1]; cbn; split.
  - discriminate.
  - intros (? & H & _). discriminate H.
  - intros H. now exists d1.
  - intros (? & H & H'). now inversion H; subst.
Qed.

Lemma toggle_flags_perm ks1 ks2 :
  Permutation ks1 ks2 ->
  forall d d', toggle_flags ks1 d = inr d' -> toggle_flags ks2 d = inr d'.
Proof.
  induction 1 as [|k l l' _ IH|a b l|l l' l'' _ IH1 _ IH2]; intros d d' Hd.
  - exact Hd.
  - apply toggle_flags_cons in Hd as (d1 & H1 & H2).
    apply toggle_flags_cons. exists d1. split; [exact H1|now apply IH].
  - apply toggle_flags_cons in Hd as (d1 & H1 & Hd).
    apply toggle_flags_cons in Hd as (d2 & H2 & Hd).
    destruct (toggle_flag_swap _ _ _ _ _ H1 H2) as (e & He1 & He2).
    apply toggle_flags_cons. exists e. split; [exact He1|].
    apply toggle_flags_cons. now exists d2.
  - now apply IH2, IH1.
Qed.

Lemma toggle_flags_keeps_keys ks : forall d d' k,
  toggle_flags ks d = inr d' ->
  is_Some (dict_get k d) -> is_Some (dict_get k d').
Proof.
  induction ks as [|k0 ks IH]; intros d d' k Hd Hk.
  - inversion Hd. now subst.
  - apply toggle_flags_cons in Hd as (d1 & H1 & H2).
    apply (IH d1 d' k H2).
    apply toggle_flag_inr in H1 as (v & _ & ->).
    now apply dict_get_set_is_Some.
Qed.

(** What [start_job] hands to its worker when it starts one. *)
Lemma start_job_job w st args :
  serial_missing st = false ->
  start_job_args w st = inr args ->
  start_job w st
  = inr (log (now w) "Starting updater…" (set_mode work "Running…" st),
         Some {| job_args := args; job_env := start_job_env w st |}).
Proof. intros Hs Ha. unfold start_job. rewrite Hs, Ha. reflexivity. Qed.

(** C2. When the flags dictionary holds the assignment [f], the argument
    vector is the script path followed by the tokens of the flag table, in
    the order of the table, and this vector is what [start_job] hands to its
    worker for the process, also when the start comes from a turn of the
    loop. With ENABLE_RS232_TEST and NO_UPDATE on and every other flag off,
    the arguments after the script path are --enable-rs232-test,
    --no-update, --keep-static-ip-service, --disable-secondary-ip-service.
    The vector depends on the assignment only: not on the order of the
    dictionary, and not on the order in which flags were toggled. *)
Theorem start_job_args_fixed_order (w : World) (st : UIState) (f : string -> bool) :
  flags_are f st ->
  start_job_args w st = inr (SCRIPT_PATH w :: interface_args f) /\
  (serial_missing st = false ->
   start_job w st
   = inr (log (now w) "Starting updater…" (set_mode work "Running…" st),
          Some {| job_args := SCRIPT_PATH w :: interface_args f;
                  job_env := start_job_env w st |})) /\
  (forall ch,
     serial_missing st = false -> edit_mode st = false ->
     start_trigger ch st = true -> may_start w st = true ->
     exists st' job,
       loop_body w ch st = inr (Continue st' (Some job)) /\
       job_args job = SCRIPT_PATH w :: interface_args f) /\
  ((forall k, In k (map fst toggle_order) -> f k = rs232_and_no_update k) ->
   start_job_args w st =
     inr [SCRIPT_PATH w; "--enable-rs232-test"; "--no-update";
          "--keep-static-ip-service"; "--disable-secondary-ip-service"] /\
   (serial_missing st = false ->
    exists st' job,
      start_job w st = inr (st', Some job) /\
      job_args job =
        [SCRIPT_PATH w; "--enable-rs232-test"; "--no-update";
         "--keep-static-ip-service"; "--disable-secondary-ip-service"])) /\
  (forall st2, flags_are f st2 ->
     start_job_args w st2 = start_job_args w st /\
     (serial_missing st2 = false ->
      exists st2' job2,
        start_job w st2 = inr (st2', Some job2) /\
        job_args job2 = SCRIPT_PATH w :: interface_args f)) /\
  (forall ks1 ks2 fl,
     Permutation ks1 ks2 ->
     toggle_flags ks1 (flags st) = inr fl ->
     toggle_flags ks2 (flags st) = inr fl /\
     (exists args, start_job_args w (set_flags fl st) = inr args) /\
     (serial_missing st = false ->
      exists st' job,
        start_job w (set_flags fl st) = inr (st', Some job) /\
        job_args job
        = SCRIPT_PATH w
          :: interface_args (fun k => default false (dict_get k fl)))).
Proof.
  intros Hf.
  pose proof (start_job_args_table w st f Hf) as Hargs.
  split; [exact Hargs|]. split; [|split; [|split; [|split]]].
  - intros Hs. now apply start_job_job.
  - intros ch Hs He Ht Hm. unfold loop_body.
    rewrite (handle_input_start w ch st He Ht), Hs.
    cbn [mbind py_bind fst snd]. rewrite Hm.
    rewrite (start_job_job w st _ Hs Hargs). cbn [mbind py_bind fst snd].
    eexists. eexists. split; reflexivity.
  - intros Hsc.
    assert (Hlit : start_job_args w st =
                   inr [SCRIPT_PATH w; "--enable-rs232-test"; "--no-update";
                        "--keep-static-ip-service"; "--disable-secondary-ip-service"]).
    { rewrite (start_job_args_table w st rs232_and_no_update); [reflexivity|].
      intros k Hk. rewrite (Hf k Hk). f_equal. now apply Hsc. }
    split; [exact Hlit|].
    intros Hs. rewrite (start_job_job w st _ Hs Hlit).
    eexists. eexists. split; reflexivity.
  - intros st2 Hf2.
    pose proof (start_job_args_table w st2 f Hf2) as Hargs2.
    split; [now rewrite Hargs, Hargs2|].
    intros Hs2. rewrite (start_job_job w st2 _ Hs2 Hargs2).
    eexists. eexists. split; reflexivity.
  - intros ks1 ks2 fl Hp Ht. split; [now apply (toggle_flags_perm ks1 ks2)|].
    apply (toggle_flags_perm ks1 ks2) in Ht; [|exact Hp].
    assert (Hfl : start_job_args w (set_flags fl st)
                  = inr (SCRIPT_PATH w
                         :: interface_args (fun k => default false (dict_get k fl)))).
    { apply start_job_args_table. intros k Hk. cbn [flags set_flags].
      destruct (toggle_flags_keeps_keys ks2 (flags st) fl k Ht) as [v Hv].
      - rewrite (Hf k Hk). now eexists.
      - now rewrite Hv. }
    split; [eexists; exact Hfl|].
    intros Hs. rewrite (start_job_job w (set_flags fl st) _ Hs Hfl).
    eexists. eexists. split; reflexivity.
Qed.

Lemma start_job_args_fixed_order_witness :
  exists st' job,
    start_job live_world qc_only_state = inr (st', Some job) /\
    job_args job =
      [SCRIPT_PATH live_world; "--enable-rs232-test"; "--no-update";
       "--keep-static-ip-service"; "--disable-secondary-ip-service"].
Proof.
  refine (proj2 (proj1 (proj2 (proj2 (proj2
            (start_job_args_fixed_order live_world qc_only_state
               rs232_and_no_update _)))) _) _).
  - intros k Hk. cbn in Hk.
    repeat (destruct Hk as [<-|Hk]; [reflexivity|]). contradiction.
  - reflexivity.
  - vm_compute. reflexivity.
Defined.

(** ** The worker *)

Lemma set_mode_nonempty m c msg st :
  set_mode m (String c msg) st = set_message (String c msg) (set_mode_field m st).
Proof. reflexivity. Qed.

(** The state after [set_mode] with a non-empty message and one [log]. *)
Lemma outcome_fields m c msg ts line st :
  let st' := log ts line (set_mode m (String c msg) st) in
  mode st' = m /\ message st' = String c msg /\
  logs st' = py_last_n 500 (logs st ++ [stamp ts line]).
Proof. rewrite set_mode_nonempty. cbn. auto. Qed.

(** C4. When the output has ended the worker records one outcome: exit
    code 0 gives mode ok and the message "Completed successfully"; another
    exit code gives mode neutral and a message that contains the code; a
    missing script gives mode neutral and a message about SCRIPT_PATH; any
    other exception gives mode neutral and a message with the text of the
    exception. In each case one summary line is logged after the lines
    logged before. *)
Theorem run_records_outcome (w : World) (x : Execution) (st : UIState) :
  (forall p, popen x = PopenOk p -> ending x = Exited 0 ->
     mode (_run w x st) = ok /\
     message (_run w x st) = "Completed successfully" /\
     logs (_run w x st) =
       py_last_n 500 (logs (drain x (set_proc (Some p) st))
                      ++ [stamp (end_time x) "Job finished: OK"])) /\
  (forall p rc, popen x = PopenOk p -> ending x = Exited rc -> rc <> 0 ->
     mode (_run w x st) = neutral /\
     message (_run w x st) = "Finished with errors (rc=" +:+ pretty rc +:+ ")" /\
     logs (_run w x st) =
       py_last_n 500 (logs (drain x (set_proc (Some p) st))
                      ++ [stamp (end_time x) ("Job finished: ERR rc=" +:+ pretty rc)])) /\
  (popen x = PopenFileNotFound ->
     mode (_run w x st) = neutral /\
     message (_run w x st) = "Shell script not found. Check SCRIPT_PATH." /\
     logs (_run w x st) =
       py_last_n 500 (logs st
                      ++ [stamp (end_time x) ("ERROR: " +:+ SCRIPT_PATH w +:+ " not found")])) /\
  (forall e, popen x = PopenException e ->
     mode (_run w x st) = neutral /\
     message (_run w x st) = "Exception: " +:+ e /\
     logs (_run w x st) =
       py_last_n 500 (logs st ++ [stamp (end_time x) ("Exception: " +:+ e)])) /\
  (forall p e, popen x = PopenOk p -> ending x = StreamException e ->
     mode (_run w x st) = neutral /\
     message (_run w x st) = "Exception: " +:+ e /\
     logs (_run w x st) =
       py_last_n 500 (logs (drain x (set_proc (Some p) st))
                      ++ [stamp (end_time x) ("Exception: " +:+ e)])).
Proof.
  repeat split; intros; unfold _run, on_exception;
    repeat match goal with H : _ = _ |- _ => rewrite H; clear H end;
    try (destruct (Z.eqb_spec rc 0) as [?|_]; [contradiction|]);
    try apply outcome_fields; try reflexivity.
Qed.

Lemma run_records_outcome_witness :
  let st := _run live_world exit2_execution (UIState_init live_world) in
  mode st = neutral /\ message st = "Finished with errors (rc=2)".
Proof.
  destruct (run_records_outcome live_world exit2_execution (UIState_init live_world))
    as (_ & H & _).
  destruct (H 7%nat 2 eq_refl eq_refl) as (Hm & Hmsg & _); [lia|].
  split; [exact Hm|exact Hmsg].
Defined.

(** ** The editor *)

(** In the editor only the last block of [handle_input] applies. *)
Lemma handle_input_editing w ch st :
  edit_mode st = true ->
  handle_input w ch st =
  if ch =? -1 then inr (st, None)
  else if key_in ch [27] then inr (set_edit_mode false st, None)
  else if key_in ch [10; 13] then
    entry ← py_index fields_order (field_index st);
    inr (set_edit_mode false
           (set_env (<[fst entry := input_buffer st]> (env st)) st), None)
  else if key_in ch [KEY_BACKSPACE; 127; 8] then
    inr (set_input_buffer (py_drop_last (input_buffer st)) st, None)
  else if (32 <=? ch) && (ch <=? 126) then
    inr (set_input_buffer (input_buffer st +:+ String (chr ch) "") st, None)
  else inr (st, None).
Proof.
  intros He. unfold handle_input. rewrite He. cbn [negb].
  rewrite !andb_false_r. reflexivity.
Qed.

Lemma py_index_field (i : nat) entry :
  fields_order !! i = Some entry ->
  py_index fields_order (Z.of_nat i) = inr entry.
Proof.
  intros H. unfold py_index.
  destruct (Z.ltb_spec (Z.of_nat i) 0) as [Hlt|_]; [lia|].
  destruct (Z.ltb_spec (Z.of_nat i) 0) as [Hlt|_]; [lia|].
  now rewrite Nat2Z.id, H.
Qed.

Lemma not_closing_key ch :
  key_in ch [27; 10; 13] = false ->
  key_in ch [27] = false /\ key_in ch [10; 13] = false.
Proof.
  unfold key_in. cbn.
  destruct (ch =? 27), (ch =? 10), (ch =? 13); cbn; auto; discriminate.
Qed.

(** A key other than Escape and Enter keeps the editor open on the same
    field and leaves the fields alone. *)
Lemma editing_key_step w ch st :
  edit_mode st = true ->
  key_in ch [27; 10; 13] = false ->
  exists st', handle_input w ch st = inr (st', None) /\
              edit_mode st' = true /\ env st' = env st /\
              field_index st' = field_index st.
Proof.
  intros He Hk. apply not_closing_key in Hk as [H27 H10].
  rewrite (handle_input_editing w ch st He), H27, H10.
  repeat match goal with
         | |- context [if ?c then _ else _] => destruct c
         end; eexists; (split; [reflexivity|]); cbn; auto.
Qed.

Lemma editing_keys w typed : forall st,
  edit_mode st = true ->
  Forall (fun ch => key_in ch [27; 10; 13] = false) typed ->
  exists st', handle_inputs w typed st = inr st' /\
              edit_mode st' = true /\ env st' = env st /\
              field_index st' = field_index st.
Proof.
  induction typed as [|ch rest IH]; intros st He Hk.
  - exists st. auto.
  - inversion Hk as [|? ? Hch Hrest]; subst.
    destruct (editing_key_step w ch st He Hch) as (st1 & H1 & He1 & Henv1 & Hi1).
    destruct (IH st1 He1 Hrest) as (st' & H' & He' & Henv' & Hi').
    exists st'. cbn [handle_inputs]. rewrite H1. cbn.
    repeat split; [exact H'|exact He'|congruence|congruence].
Qed.

(** Enter on a field opens the editor on the current value. *)
Lemma enter_on_field w ch st (i : nat) key label :
  edit_mode st = false ->
  field_index st = Z.of_nat i ->
  fields_order !! i = Some (key, label) ->
  key_in ch [KEY_ENTER; 10; 13] = true ->
  handle_input w ch st =
    inr (set_edit_mode true
           (set_input_buffer (default "" (env st !! key)) st), None).
Proof.
  intros He Hi Hf Hk. apply key_in_cases in Hk.
  assert (Hlt : (i < 12)%nat) by (apply lookup_lt_Some in Hf; exact Hf).
  assert (Hne : (Z.of_nat i =? len fields_order + len toggle_order) = false)
    by (apply Z.eqb_neq; unfold len; cbn [fields_order toggle_order length]; lia).
  repeat (destruct Hk as [<-|Hk]; [|]); try contradiction;
    unfold handle_input; rewrite He, Hi; cbn [negb key_in existsb Z.eqb orb andb];
    cbn - [py_index fields_order toggle_order len];
    rewrite Hne, (py_index_field i _ Hf); reflexivity.
Qed.

(** X28. In an edit session on a field, after any keys typed into the
    editor, Enter with code 10 or 13 stores the input buffer as it is then
    into that field, leaves the other fields as they were before the session
    and closes the editor; Escape closes the editor with every field as it
    was before the session. *)
Theorem edit_commit_or_cancel (w : World) (st : UIState) (i : nat)
    (key label : string) (typed : list Z) :
  edit_mode st = true ->
  field_index st = Z.of_nat i ->
  fields_order !! i = Some (key, label) ->
  Forall (fun ch => key_in ch [27; 10; 13] = false) typed ->
  exists st',
    handle_inputs w typed st = inr st' /\
    (forall ch, key_in ch [10; 13] = true ->
       exists st'', handle_input w ch st' = inr (st'', None) /\
                    edit_mode st'' = false /\
                    env st'' = <[key := input_buffer st']> (env st)) /\
    (exists st'', handle_input w 27 st' = inr (st'', None) /\
                  edit_mode st'' = false /\
                  env st'' = env st).
Proof.
  intros He Hi Hf Hk.
  destruct (editing_keys w typed st He Hk) as (st' & H' & He' & Henv' & Hi').
  exists st'. split; [exact H'|]. split.
  - intros ch Hch. rewrite (handle_input_editing w ch st' He').
    apply key_in_cases in Hch.
    repeat (destruct Hch as [<-|Hch]; [|]); try contradiction;
      cbn [key_in existsb Z.eqb orb]; cbn - [py_index fields_order];
      rewrite Hi', Hi, (py_index_field i _ Hf); cbn;
      eexists; (split; [reflexivity|]); cbn; rewrite Henv'; auto.
  - rewrite (handle_input_editing w 27 st' He'). cbn.
    eexists. split; [reflexivity|]. cbn. auto.
Qed.

Lemma editing_state_reached :
  handle_inputs live_world [KEY_DOWN; KEY_DOWN; 10] (UIState_init live_world)
  = inr editing_state.
Proof. vm_compute. reflexivity. Qed.

Lemma edit_commit_or_cancel_witness :
  exists st',
    handle_inputs live_world [ord "2"; KEY_BACKSPACE; ord "3"] editing_state = inr st' /\
    (forall ch, key_in ch [10; 13] = true ->
       exists st'', handle_input live_world ch st' = inr (st'', None) /\
                    edit_mode st'' = false /\
                    env st'' = <["SERVICE_NAME" := input_buffer st']> (env editing_state)) /\
    (exists st'', handle_input live_world 27 st' = inr (st'', None) /\
                  edit_mode st'' = false /\
                  env st'' = env editing_state).
Proof.
  apply (edit_commit_or_cancel live_world editing_state 2
           "SERVICE_NAME" "Service name" [ord "2"; KEY_BACKSPACE; ord "3"]);
    try reflexivity.
  repeat constructor.
Defined.

(** ** The theme key *)

(** Against C10 as stated: the theme key, pressed in the editor that Down,
    Down, Enter open from the initial state, is typed into the input buffer,
    and the theme is not flipped. *)
Lemma theme_key_typed_in_editor :
  handle_inputs live_world [KEY_DOWN; KEY_DOWN; 10] (UIState_init live_world)
    = inr editing_state /\
  edit_mode editing_state = true /\
  handle_input live_world (ord "t") editing_state
    = inr (set_input_buffer "nexSoftt" editing_state, None) /\
  theme_dark (set_input_buffer "nexSoftt" editing_state)
    <> negb (theme_dark editing_state).
Proof. repeat split; try (vm_compute; reflexivity). vm_compute. discriminate. Qed.

(** The keypad Enter ([KEY_ENTER]) is not a key of the editor: it opens an
    edit outside the editor, but inside it nothing happens. *)
Lemma keypad_enter_ignored_in_editor w st :
  edit_mode st = true -> handle_input w KEY_ENTER st = inr (st, None).
Proof. intros He. now rewrite (handle_input_editing w KEY_ENTER st He). Qed.

(** C8. The keypad Enter is an Enter key of the handler: outside the editor
    it opens the edit of the selected field, as codes 10 and 13 do. Inside
    the editor it is not handled: the edit is not stored and the editor
    stays open, whatever the state. *)
Theorem keypad_enter_does_not_commit (w : World) (st : UIState) (i : nat)
    (key label : string) :
  edit_mode st = false ->
  field_index st = Z.of_nat i ->
  fields_order !! i = Some (key, label) ->
  handle_input w KEY_ENTER st
  = inr (set_edit_mode true
           (set_input_buffer (default "" (env st !! key)) st), None) /\
  (forall st', edit_mode st' = true ->
     handle_input w KEY_ENTER st' = inr (st', None)).
Proof.
  intros He Hi Hf. split.
  - now apply (enter_on_field w KEY_ENTER st i key label).
  - intros st' He'. now apply keypad_enter_ignored_in_editor.
Qed.

Lemma keypad_enter_does_not_commit_witness :
  handle_input live_world KEY_ENTER (set_field_index 2 (UIState_init live_world))
    = inr (editing_state, None) /\
  handle_input live_world KEY_ENTER editing_state = inr (editing_state, None).
Proof.
  destruct (keypad_enter_does_not_commit live_world
              (set_field_index 2 (UIState_init live_world)) 2
              "SERVICE_NAME" "Service name" eq_refl eq_refl eq_refl)
    as [Hopen Hstay].
  split.
  - rewrite Hopen. vm_compute. reflexivity.
  - apply Hstay. reflexivity.
Defined.

(** C10, amended. The theme key flips the theme outside the editor, whatever
    the job status mode. In the editor the key is appended to the input
    buffer and the theme stays. Read by the quit prompt while a job runs, it
    cancels the quit and the state, theme included, stays. *)
Theorem theme_key_by_mode (w : World) (ch : Z) (st : UIState) :
  key_in ch [ord "t"; ord "T"] = true ->
  (edit_mode st = false ->
   handle_input w ch st = inr (set_theme_dark (negb (theme_dark st)) st, None)) /\
  (edit_mode st = true ->
   handle_input w ch st =
     inr (set_input_buffer (input_buffer st +:+ String (chr ch) "") st, None)) /\
  (forall p q, edit_mode st = false ->
     proc st = Some p -> poll w p = None -> confirm_getch w = ch ->
     key_in q [ord "q"; 27] = true ->
     handle_input w q st = inr (st, None)).
Proof.
  intros Hk. apply key_in_cases in Hk.
  split; [|split].
  - intros He.
    repeat (destruct Hk as [<-|Hk]; [|]); try contradiction;
      unfold handle_input; rewrite He; reflexivity.
  - intros He. rewrite (handle_input_editing w ch st He).
    repeat (destruct Hk as [<-|Hk]; [|]); try contradiction; reflexivity.
  - intros p q He Hp Hl Hc Hq. apply key_in_cases in Hq.
    assert (Hno : _confirm_quit w st = false).
    { unfold _confirm_quit. rewrite Hp, Hl, Hc.
      repeat (destruct Hk as [<-|Hk]; [|]); try contradiction; reflexivity. }
    repeat (destruct Hq as [<-|Hq]; [|]); try contradiction;
      unfold handle_input; rewrite He; cbn - [_confirm_quit];
      rewrite Hno; reflexivity.
Qed.

Lemma theme_key_by_mode_witness :
  handle_input live_world (ord "t") (UIState_init live_world)
  = inr (set_theme_dark false (UIState_init live_world), None).
Proof.
  apply (proj1 (theme_key_by_mode live_world (ord "t") (UIState_init live_world)
                  eq_refl)).
  reflexivity.
Defined.

(** ** Keys that are not handled *)

Lemma set_field_index_same st : set_field_index (field_index st) st = st.
Proof. now destruct st. Qed.

Lemma down_key w st :
  edit_mode st = false ->
  handle_input w KEY_DOWN st =
    inr (set_field_index ((field_index st + 1) `mod` total_items) st, None).
Proof. intros He. unfold handle_input. rewrite He. reflexivity. Qed.

Lemma up_key w st :
  edit_mode st = false ->
  handle_input w KEY_UP st =
    inr (set_field_index ((field_index st - 1) `mod` total_items) st, None).
Proof. intros He. unfold handle_input. rewrite He. reflexivity. Qed.

Lemma down_keys w (n : nat) : forall st st0 (i : Z),
  edit_mode st0 = false ->
  st = set_field_index i st0 ->
  0 <= i -> i + Z.of_nat n < total_items ->
  handle_inputs w (repeat KEY_DOWN n) st
  = inr (set_field_index (i + Z.of_nat n) st0).
Proof.
  induction n as [|n IH]; intros st st0 i He -> Hi Hn.
  - cbn. now rewrite Z.add_0_r.
  - cbn [repeat handle_inputs]. rewrite down_key by exact He.
    cbn [mbind py_bind fst field_index set_field_index].
    rewrite Z.mod_small by lia.
    rewrite (IH _ st0 (i + 1)); [f_equal; f_equal; lia|exact He|reflexivity|lia|lia].
Qed.

Lemma enter_on_flag w ch st :
  edit_mode st = false ->
  len fields_order <= field_index st < len fields_order + len toggle_order ->
  key_in ch [KEY_ENTER; 10; 13] = true ->
  handle_input w ch st = inl IndexError.
Proof.
  intros He Hi Hk. apply key_in_cases in Hk.
  assert (Hne : (field_index st =? len fields_order + len toggle_order) = false)
    by (apply Z.eqb_neq; lia).
  assert (Hidx : py_index fields_order (field_index st)
                 = (inl IndexError : py (string * string))).
  { unfold py_index. change (len fields_order) with 12 in Hi.
    destruct (Z.ltb_spec (field_index st) 0) as [?|_]; [lia|].
    destruct (Z.ltb_spec (field_index st) 0) as [?|_]; [lia|].
    rewrite lookup_ge_None_2; [reflexivity|]. cbn [fields_order length]. lia. }
  repeat (destruct Hk as [<-|Hk]; [|]); try contradiction;
    unfold handle_input; rewrite He;
    cbn - [py_index fields_order toggle_order len];
    rewrite Hne, Hidx; reflexivity.
Qed.

(** C6. From the initial state, twelve Down select the first flag, and Enter
    then raises IndexError at [fields_order[field_index]]; Up selects the
    Start action, and Left then raises IndexError at [toggle_order[i]].
    Nothing in [run] catches the exception. *)
Theorem enter_on_flag_raises (w : World) :
  (exists st, handle_inputs w (repeat KEY_DOWN 12) (UIState_init w) = inr st /\
              field_index st = len fields_order /\
              handle_input w 10 st = inl IndexError /\
              loop_body w 10 st = inl IndexError) /\
  (exists st, handle_inputs w [KEY_UP] (UIState_init w) = inr st /\
              field_index st = len fields_order + len toggle_order /\
              handle_input w KEY_LEFT st = inl IndexError /\
              loop_body w KEY_LEFT st = inl IndexError).
Proof.
  split.
  - exists (set_field_index 12 (UIState_init w)).
    assert (H : handle_input w 10 (set_field_index 12 (UIState_init w))
                = inl IndexError).
    { apply enter_on_flag; [reflexivity| |reflexivity].
      cbn [field_index set_field_index]. change (len fields_order) with 12.
      change (len toggle_order) with 10. lia. }
    split; [|split; [reflexivity|split; [exact H|]]].
    + apply (down_keys w 12 _ (UIState_init w) 0); reflexivity.
    + unfold loop_body. now rewrite H.
  - exists (set_field_index 22 (UIState_init w)).
    assert (H : handle_input w KEY_LEFT (set_field_index 22 (UIState_init w))
                = inl IndexError).
    { unfold handle_input. reflexivity. }
    split; [|split; [reflexivity|split; [exact H|]]].
    + cbn [handle_inputs]. rewrite up_key by reflexivity. reflexivity.
    + unfold loop_body. now rewrite H.
Qed.

Lemma start_selected_state_reached :
  handle_inputs live_world [KEY_UP] (UIState_init live_world)
  = inr start_selected_state.
Proof. vm_compute. reflexivity. Qed.

Lemma flag_selected_state_reached :
  handle_inputs live_world (repeat KEY_DOWN 12) (UIState_init live_world)
  = inr flag_selected_state.
Proof. vm_compute. reflexivity. Qed.

(** ** Left and right *)

Lemma arrow_outside_editor w ch st :
  edit_mode st = false ->
  key_in ch [KEY_LEFT; KEY_RIGHT] = true ->
  handle_input w ch st =
  if field_index st >=? len fields_order then
    entry ← py_index toggle_order (field_index st - len fields_order);
    fl ← toggle_flag (fst entry) (flags st);
    inr (set_flags fl st, None)
  else inr (st, None).
Proof.
  intros He Hk. apply key_in_cases in Hk.
  repeat (destruct Hk as [<-|Hk]; [|]); try contradiction;
    unfold handle_input; rewrite He; reflexivity.
Qed.

(** C7. Outside the editor, with the Start action selected, a left or right
    key raises IndexError: the index into [toggle_order] is its length. *)
Theorem arrow_on_start_raises (w : World) (ch : Z) (st : UIState) :
  edit_mode st = false ->
  field_index st = len fields_order + len toggle_order ->
  key_in ch [KEY_LEFT; KEY_RIGHT] = true ->
  handle_input w ch st = inl IndexError.
Proof.
  intros He Hi Hk. rewrite (arrow_outside_editor w ch st He Hk), Hi. reflexivity.
Qed.

Lemma arrow_on_start_raises_witness :
  handle_input live_world KEY_RIGHT start_selected_state = inl IndexError.
Proof.
  apply (arrow_on_start_raises live_world KEY_RIGHT start_selected_state);
    reflexivity.
Defined.

(** On a field item a left or right key changes nothing. *)
Lemma arrow_on_field_is_noop w ch st :
  edit_mode st = false ->
  field_index st < len fields_order ->
  key_in ch [KEY_LEFT; KEY_RIGHT] = true ->
  handle_input w ch st = inr (st, None).
Proof.
  intros He Hi Hk. rewrite (arrow_outside_editor w ch st He Hk).
  destruct (Z.geb_spec (field_index st) (len fields_order)) as [?|_]; [lia|].
  reflexivity.
Qed.

Lemma py_index_toggle (i : nat) entry :
  toggle_order !! i = Some entry ->
  py_index toggle_order (Z.of_nat i) = inr entry.
Proof.
  intros H. unfold py_index.
  destruct (Z.ltb_spec (Z.of_nat i) 0) as [Hlt|_]; [lia|].
  destruct (Z.ltb_spec (Z.of_nat i) 0) as [Hlt|_]; [lia|].
  now rewrite Nat2Z.id, H.
Qed.

(** On a flag item a left or right key negates that flag in place. *)
Lemma arrow_on_flag_toggles w ch st (i : nat) key label v :
  edit_mode st = false ->
  field_index st = len fields_order + Z.of_nat i ->
  toggle_order !! i = Some (key, label) ->
  dict_get key (flags st) = Some v ->
  key_in ch [KEY_LEFT; KEY_RIGHT] = true ->
  handle_input w ch st
  = inr (set_flags (dict_set key (negb v) (flags st)) st, None).
Proof.
  intros He Hi Ht Hv Hk. rewrite (arrow_outside_editor w ch st He Hk), Hi.
  destruct (Z.geb_spec (len fields_order + Z.of_nat i) (len fields_order))
    as [_|?]; [|lia].
  replace (len fields_order + Z.of_nat i - len fields_order) with (Z.of_nat i) by lia.
  rewrite (py_index_toggle i _ Ht). cbn [mbind py_bind fst].
  unfold toggle_flag. rewrite (dict_getitem_of_get _ _ _ Hv). reflexivity.
Qed.

Lemma dict_set_twice {V} k (v v' : V) d :
  dict_get k d = Some v -> dict_set k v (dict_set k v' d) = d.
Proof.
  induction d as [|[k0 v0] rest IH]; cbn; [discriminate|].
  destruct (String.eqb k k0) eqn:E; cbn; rewrite E.
  - intros H. now inversion H.
  - intros H. now rewrite IH.
Qed.

(** Two left or right keys on a flag item give the state back. *)
Lemma arrow_twice_restores w ch ch' st (i : nat) key label v :
  edit_mode st = false ->
  field_index st = len fields_order + Z.of_nat i ->
  toggle_order !! i = Some (key, label) ->
  dict_get key (flags st) = Some v ->
  key_in ch [KEY_LEFT; KEY_RIGHT] = true ->
  key_in ch' [KEY_LEFT; KEY_RIGHT] = true ->
  handle_inputs w [ch; ch'] st = inr st.
Proof.
  intros He Hi Ht Hv Hk Hk'. cbn [handle_inputs].
  rewrite (arrow_on_flag_toggles w ch st i key label v He Hi Ht Hv Hk).
  cbn [mbind py_bind fst].
  rewrite (arrow_on_flag_toggles w ch' _ i key label (negb v));
    [|exact He|exact Hi|exact Ht|apply dict_get_set_eq|exact Hk'].
  cbn [mbind py_bind fst flags set_flags].
  rewrite negb_involutive, (dict_set_twice key v (negb v) (flags st) Hv).
  now destruct st.
Qed.

(** ** Well-formed states *)

Lemma dict_set_keys {V} k (v : V) d :
  is_Some (dict_get k d) -> map fst (dict_set k v d) = map fst d.
Proof.
  induction d as [|[k0 v0] rest IH]; cbn; intros H.
  - destruct H as [? H]. discriminate H.
  - destruct (String.eqb k k0) eqn:E; cbn; [reflexivity|].
    now rewrite IH.
Qed.

Lemma py_index_inr {A} (l : list A) (i : Z) a :
  0 <= i -> py_index l i = inr a -> i < len l /\ l !! Z.to_nat i = Some a.
Proof.
  intros Hi. unfold py_index.
  destruct (Z.ltb_spec i 0) as [?|_]; [lia|].
  destruct (Z.ltb_spec i 0) as [?|_]; [lia|].
  destruct (l !! Z.to_nat i) as [b|] eqn:E; [|discriminate].
  intros H. inversion H; subst. split; [|reflexivity].
  apply lookup_lt_Some in E. unfold len. lia.
Qed.

Lemma py_index_lt {A} (l : list A) (i : Z) :
  0 <= i < len l -> exists a, py_index l i = inr a /\ l !! Z.to_nat i = Some a.
Proof.
  intros Hi. unfold py_index, len in *.
  destruct (Z.ltb_spec i 0) as [?|_]; [lia|].
  destruct (Z.ltb_spec i 0) as [?|_]; [lia|].
  destruct (lookup_lt_is_Some_2 l (Z.to_nat i)) as [a Ha]; [lia|].
  exists a. now rewrite Ha.
Qed.

Lemma py_index_ge {A} (l : list A) (i : Z) :
  len l <= i -> py_index l i = inl IndexError.
Proof.
  intros Hi. unfold py_index, len in *.
  destruct (Z.ltb_spec i 0) as [?|_]; [lia|].
  destruct (Z.ltb_spec i 0) as [?|_]; [lia|].
  rewrite lookup_ge_None_2; [reflexivity|lia].
Qed.

Lemma lookup_fst_In {A B} (l : list (A * B)) (i : nat) (e : A * B) :
  l !! i = Some e -> In (fst e) (map fst l).
Proof.
  intros H. apply in_map. apply list_elem_of_In.
  apply list_elem_of_lookup. now exists i.
Qed.

Lemma wf_init w : wf (UIState_init w).
Proof.
  constructor.
  - intros k Hk. cbn in Hk.
    repeat (destruct Hk as [<-|Hk]; [now eexists|]). contradiction.
  - apply (bool_decide_unpack _). vm_compute. reflexivity.
  - intros k Hk. cbn [UIState_init env].
    assert (Hins : forall (m : gmap string string) a b,
               is_Some (m !! k) -> is_Some (<[a := b]> m !! k)).
    { intros m a b Hm. rewrite lookup_insert. case_decide; [now eexists|exact Hm]. }
    repeat match goal with
           | |- is_Some ((if ?c then _ else _) !! _) => destruct c
           | |- is_Some (<[_ := _]> _ !! _) => apply Hins
           end;
      cbn in Hk;
      repeat (destruct Hk as [<-|Hk]; [now eexists|]); contradiction.
  - cbn. rewrite total_items_eq. lia.
  - cbn. discriminate.
Qed.

Lemma wf_update st st' :
  wf st ->
  (forall k, is_Some (dict_get k (flags st)) -> is_Some (dict_get k (flags st'))) ->
  map fst (flags st') = map fst (flags st) ->
  (forall k, is_Some (env st !! k) -> is_Some (env st' !! k)) ->
  0 <= field_index st' < total_items ->
  (edit_mode st' = true -> 0 <= field_index st' < len fields_order) ->
  wf st'.
Proof.
  intros [Hf Hn He Hi Hed] Hf' Hk' He' Hi' Hed'. constructor; auto.
  now rewrite Hk'.
Qed.

(** A state that differs in the fields of the worker only is as
    well-formed. *)
Lemma wf_frame st st' :
  flags st' = flags st -> env st' = env st ->
  field_index st' = field_index st -> edit_mode st' = edit_mode st ->
  wf st -> wf st'.
Proof.
  intros Hf He Hi Hed Hwf. apply (wf_update st st' Hwf);
    rewrite ?Hf, ?He, ?Hi, ?Hed; auto; apply Hwf.
Qed.

Lemma toggle_flag_wf k st fl :
  wf st -> toggle_flag k (flags st) = inr fl -> wf (set_flags fl st).
Proof.
  intros Hwf Ht. apply toggle_flag_inr in Ht as (v & Hv & ->).
  apply (wf_update st _ Hwf); cbn; try apply Hwf; auto.
  - intros k0. apply dict_get_set_is_Some.
  - apply dict_set_keys. now exists v.
Qed.

Lemma require_serial_wf w st : wf st -> wf (require_serial w st).
Proof.
  intros Hwf. rewrite require_serial_eq.
  apply (wf_update st _ Hwf); cbn; auto; try intros _;
    change (len fields_order) with 12; rewrite ?total_items_eq; lia.
Qed.

Lemma mod_total_items z : 0 <= z `mod` total_items < total_items.
Proof. apply Z.mod_pos_bound. rewrite total_items_eq. lia. Qed.

Lemma handle_input_wf w ch st st' a :
  wf st -> handle_input w ch st = inr (st', a) -> wf st'.
Proof.
  intros Hwf H. unfold handle_input in H.
  repeat match type of H with
         | context [if ?c then _ else _] => destruct c eqn:?
         | context [mbind _ ?m] => destruct m eqn:?; cbn in H
         end;
    try discriminate H; inversion H; subst; clear H;
    try exact Hwf;
    try (now apply require_serial_wf);
    try (eapply toggle_flag_wf; eassumption);
    try (apply (wf_update st _ Hwf); cbn; auto using mod_total_items;
         try apply Hwf; try discriminate;
         repeat match goal with
                | H : _ && negb (edit_mode st) = true |- _ =>
                    apply andb_true_iff in H as [_ H];
                    apply negb_true_iff in H
                end; try congruence).
  - intros _.
    match goal with
    | H : py_index fields_order (field_index st) = inr _ |- _ =>
        apply py_index_inr in H as [H _]; [|apply Hwf]
    end.
    split; [apply Hwf|assumption].
  - intros k Hk. rewrite lookup_insert. case_decide; [now eexists|exact Hk].
Qed.

Lemma log_wf ts line st : wf st -> wf (log ts line st).
Proof. now apply wf_frame. Qed.

Lemma set_mode_wf m msg st : wf st -> wf (set_mode m msg st).
Proof. apply wf_frame; unfold set_mode; destruct (py_truthy msg); reflexivity. Qed.

Lemma set_proc_wf p st : wf st -> wf (set_proc p st).
Proof. now apply wf_frame. Qed.

(** In a well-formed state the argument vector can be built. *)
Lemma start_job_args_wf w st :
  wf st -> exists args, start_job_args w st = inr args.
Proof.
  intros Hwf.
  exists (SCRIPT_PATH w :: interface_args (fun k => default false (dict_get k (flags st)))).
  apply start_job_args_table. intros k Hk.
  destruct (wf_flags st Hwf k Hk) as [v Hv]. now rewrite Hv.
Qed.

Lemma start_job_wf w st st' j :
  wf st -> start_job w st = inr (st', j) -> wf st'.
Proof.
  intros Hwf. unfold start_job.
  destruct (serial_missing st).
  - intros H. inversion H; subst. now apply log_wf, set_mode_wf.
  - destruct (start_job_args w st); cbn; [discriminate|].
    intros H. inversion H; subst. apply log_wf. now apply (wf_frame st).
Qed.

Lemma loop_body_wf w ch st r :
  wf st -> loop_body w ch st = inr r ->
  match r with Break st' => wf st' | Continue st' _ => wf st' end.
Proof.
  intros Hwf. unfold loop_body.
  destruct (handle_input w ch st) as [e|[st1 a]] eqn:Hh; cbn; [discriminate|].
  pose proof (handle_input_wf _ _ _ _ _ Hwf Hh) as Hwf1.
  destruct a as [[]|].
  - intros H. now inversion H.
  - destruct (may_start w st1).
    + destruct (start_job w st1) as [e|[st2 j]] eqn:Hs; cbn; [discriminate|].
      intros H. inversion H; subst. now apply (start_job_wf w st1 st2 j).
    + intros H. now inversion H.
  - intros H. now inversion H.
Qed.

(** X1. Every reachable state is well-formed: all ten flags are keys of
    [flags], no key twice, all twelve fields have a value, the selection is
    on one of the 23 items, and the editor is open on a field only. *)
Theorem reachable_wf (st : UIState) : reachable st -> wf st.
Proof.
  induction 1 as [w|w ch st st' started _ IH Hl|p st _ IH|ts line st _ IH|m msg st _ IH].
  - apply wf_init.
  - exact (loop_body_wf w ch st _ IH Hl).
  - now apply set_proc_wf.
  - now apply log_wf.
  - now apply set_mode_wf.
Qed.

Lemma editing_state_reachable : reachable editing_state.
Proof.
  apply (reach_turn live_world 10 (set_field_index 2 (UIState_init live_world)) _ None).
  - apply (reach_turn live_world KEY_DOWN (set_field_index 1 (UIState_init live_world)) _ None).
    + apply (reach_turn live_world KEY_DOWN (UIState_init live_world) _ None).
      * apply reach_init.
      * vm_compute. reflexivity.
    + vm_compute. reflexivity.
  - vm_compute. reflexivity.
Defined.

Lemma reachable_wf_witness : wf editing_state.
Proof. apply reachable_wf. exact editing_state_reachable. Defined.

(** The worker as a whole only takes reachable states to reachable states. *)
Lemma reachable_run w x st : reachable st -> reachable (_run w x st).
Proof.
  intros Hr. unfold _run, on_exception.
  assert (Hd : forall s, reachable s -> reachable (drain x s)).
  { intros s. unfold drain, log_all.
    generalize (map (fun tl => (fst tl, rstrip_nl (snd tl))) (output x)).
    intros l. revert s. induction l as [|a l IH]; intros s Hs; [exact Hs|].
    cbn. apply IH. now apply reach_log. }
  destruct (popen x); [destruct (ending x) as [rc|e]; [destruct (rc =? 0)|]| |];
    repeat first [apply reach_log | apply reach_set_mode | apply Hd
                 | apply reach_set_proc | exact Hr].
Qed.

(** ** The exceptions of the key handler *)

Lemma enter_outside_editor w ch st :
  edit_mode st = false ->
  key_in ch [KEY_ENTER; 10; 13] = true ->
  handle_input w ch st =
  if field_index st =? len fields_order + len toggle_order then
    if serial_missing st then inr (require_serial w st, None)
    else inr (st, Some start)
  else
    entry ← py_index fields_order (field_index st);
    inr (set_edit_mode true
           (set_input_buffer (default "" (env st !! fst entry)) st), None).
Proof.
  intros He Hk. apply key_in_cases in Hk.
  repeat (destruct Hk as [<-|Hk]; [|]); try contradiction;
    unfold handle_input; rewrite He; reflexivity.
Qed.

Lemma unhandled_raises w ch st :
  wf st -> unhandled ch st -> handle_input w ch st = inl IndexError.
Proof.
  intros Hwf [He [[Hk Hi]|[Hk Hi]]].
  - now apply enter_on_flag.
  - rewrite (arrow_outside_editor w ch st He Hk), Hi. reflexivity.
Qed.

Lemma handled_returns w ch st :
  wf st -> ~ unhandled ch st ->
  exists st' a, handle_input w ch st = inr (st', a).
Proof.
  intros Hwf Hn. destruct (edit_mode st) eqn:He.
  - rewrite (handle_input_editing w ch st He).
    destruct (py_index_lt fields_order (field_index st)) as (entry & Hidx & _);
      [now apply Hwf|].
    rewrite Hidx.
    repeat match goal with
           | |- context [if ?c then _ else _] => destruct c
           end; eexists; eexists; reflexivity.
  - pose proof (wf_index st Hwf) as Hi. rewrite total_items_eq in Hi.
    change (len fields_order) with 12 in *. change (len toggle_order) with 10 in *.
    destruct (key_in ch [KEY_LEFT; KEY_RIGHT]) eqn:Hlr.
    + rewrite (arrow_outside_editor w ch st He Hlr).
      change (len fields_order) with 12.
      destruct (Z.geb_spec (field_index st) 12) as [Hge|_];
        [|eexists; eexists; reflexivity].
      assert (Hne : field_index st <> 22).
      { intros Heq. apply Hn. split; [exact He|]. right. split; [exact Hlr|].
        exact Heq. }
      destruct (py_index_lt toggle_order (field_index st - 12))
        as (entry & Hidx & Hlook); [change (len toggle_order) with 10; lia|].
      rewrite Hidx. cbn [mbind py_bind].
      destruct (wf_flags st Hwf (fst entry)) as [v Hv];
        [now apply (lookup_fst_In toggle_order (Z.to_nat (field_index st - 12)))|].
      unfold toggle_flag. rewrite (dict_getitem_of_get _ _ _ Hv).
      eexists; eexists; reflexivity.
    + destruct (key_in ch [KEY_ENTER; 10; 13]) eqn:Hen.
      * rewrite (enter_outside_editor w ch st He Hen).
        change (len fields_order + len toggle_order) with 22.
        destruct (Z.eqb_spec (field_index st) 22) as [_|Hne].
        { destruct (serial_missing st); eexists; eexists; reflexivity. }
        destruct (py_index_lt fields_order (field_index st))
          as (entry & Hidx & _).
        { change (len fields_order) with 12.
          destruct (Z.lt_ge_cases (field_index st) 12) as [?|Hge]; [lia|].
          exfalso. apply Hn. split; [exact He|]. left. split; [exact Hen|].
          change (len fields_order) with 12. change (len toggle_order) with 10. lia. }
        rewrite Hidx. eexists; eexists; reflexivity.
      * unfold handle_input. rewrite He, Hlr, Hen. cbn [negb andb].
        repeat match goal with
               | |- context [if ?c then _ else _] => destruct c
               end; eexists; eexists; reflexivity.
Qed.

(** X2. In a well-formed state the key handler raises in exactly two
    situations, both outside the editor: Enter with a flag selected, and
    left or right with the Start action selected. It then raises IndexError;
    every other key in every other state is handled. *)
Theorem handle_input_raises_iff (w : World) (ch : Z) (st : UIState) :
  wf st ->
  (unhandled ch st -> handle_input w ch st = inl IndexError) /\
  (~ unhandled ch st -> exists st' a, handle_input w ch st = inr (st', a)).
Proof.
  intros Hwf. split; [now apply unhandled_raises|now apply handled_returns].
Qed.

Lemma handle_input_raises_iff_witness :
  exists st' a,
    handle_input live_world (ord "s") (UIState_init live_world) = inr (st', a).
Proof.
  apply (proj2 (handle_input_raises_iff live_world (ord "s")
                  (UIState_init live_world) (wf_init live_world))).
  intros [_ [[H _]|[H _]]]; vm_compute in H; discriminate H.
Defined.

(** ** Starting and quitting *)

(** X3. In a well-formed state [start_job] does not raise. It starts a
    worker exactly when SERIAL_NUMBER is non-empty, and then the mode is
    work; otherwise the mode is neutral. Either way it logs one line and
    leaves the fields, the flags, the selection, the editor and the process
    handle as they are. *)
Theorem start_job_returns (w : World) (st : UIState) :
  wf st ->
  exists st' j,
    start_job w st = inr (st', j) /\
    (is_Some j <-> serial_missing st = false) /\
    mode st' = (if serial_missing st then neutral else work) /\
    (exists line, logs st' = py_last_n 500 (logs st ++ [stamp (now w) line])) /\
    env st' = env st /\ flags st' = flags st /\
    field_index st' = field_index st /\ edit_mode st' = edit_mode st /\
    input_buffer st' = input_buffer st /\ proc st' = proc st.
Proof.
  intros Hwf. unfold start_job.
  destruct (start_job_args_wf w st Hwf) as [args Hargs]. rewrite Hargs.
  destruct (serial_missing st); eexists; eexists; (split; [reflexivity|]);
    cbn; repeat split; eauto; try (intros [? H]; discriminate H);
    discriminate.
Qed.

Lemma start_job_returns_witness :
  exists st' j,
    start_job live_world (UIState_init live_world) = inr (st', j) /\
    (is_Some j <-> serial_missing (UIState_init live_world) = false) /\
    mode st' = (if serial_missing (UIState_init live_world) then neutral else work) /\
    (exists line, logs st' = py_last_n 500 (logs (UIState_init live_world)
                                            ++ [stamp (now live_world) line])) /\
    env st' = env (UIState_init live_world) /\
    flags st' = flags (UIState_init live_world) /\
    field_index st' = field_index (UIState_init live_world) /\
    edit_mode st' = edit_mode (UIState_init live_world) /\
    input_buffer st' = input_buffer (UIState_init live_world) /\
    proc st' = proc (UIState_init live_world).
Proof.
  exact (start_job_returns live_world (UIState_init live_world) (wf_init live_world)).
Defined.

Lemma handle_input_action_start w ch st st1 :
  handle_input w ch st = inr (st1, Some start) ->
  edit_mode st = false /\ start_trigger ch st = true /\ serial_missing st = false.
Proof.
  intros H. unfold handle_input in H.
  repeat match type of H with
         | context [if ?c then _ else _] => destruct c eqn:?
         | context [mbind _ ?m] => destruct m; cbn in H
         end; try discriminate H;
    repeat match goal with
           | H : _ && _ = true |- _ => apply andb_true_iff in H as [? ?]
           | H : negb _ = true |- _ => apply negb_true_iff in H
           end;
    unfold start_trigger;
    repeat match goal with
           | H : key_in ch _ = true |- _ => rewrite H; clear H
           | H : (field_index st =? _) = true |- _ => rewrite H; clear H
           end; auto using orb_true_r.
Qed.

Lemma start_job_starts w st :
  wf st -> serial_missing st = false ->
  exists st' job, start_job w st = inr (st', Some job).
Proof.
  intros Hwf Hs. unfold start_job. rewrite Hs.
  destruct (start_job_args_wf w st Hwf) as [args ->].
  eexists. eexists. reflexivity.
Qed.

(** X4. A turn of the loop starts a worker exactly when the key is a start
    trigger outside the editor, SERIAL_NUMBER is non-empty and no process is
    live. (For the "if" part the state has to be well-formed.) *)
Theorem loop_starts_worker_iff (w : World) (ch : Z) (st : UIState) :
  wf st ->
  ((exists st' job, loop_body w ch st = inr (Continue st' (Some job))) <->
   (edit_mode st = false /\ start_trigger ch st = true /\
    serial_missing st = false /\ may_start w st = true)).
Proof.
  intros Hwf. split.
  - intros (st' & job & H). unfold loop_body in H.
    destruct (handle_input w ch st) as [e|[st1 [[]|]]] eqn:Hh; cbn in H;
      try discriminate H.
    pose proof (handle_input_start_keeps_state _ _ _ _ Hh) as ->.
    destruct (handle_input_action_start _ _ _ _ Hh) as (He & Ht & Hs).
    destruct (may_start w st); [auto|discriminate H].
  - intros (He & Ht & Hs & Hm). unfold loop_body.
    rewrite (handle_input_start w ch st He Ht), Hs. cbn. rewrite Hm.
    destruct (start_job_starts w st Hwf Hs) as (st' & job & Hj).
    rewrite Hj. cbn. now exists st', job.
Qed.

Lemma loop_starts_worker_iff_witness :
  (exists st' job,
     loop_body live_world KEY_F5 (UIState_init live_world)
     = inr (Continue st' (Some job))) <->
  (edit_mode (UIState_init live_world) = false /\
   start_trigger KEY_F5 (UIState_init live_world) = true /\
   serial_missing (UIState_init live_world) = false /\
   may_start live_world (UIState_init live_world) = true).
Proof.
  exact (loop_starts_worker_iff live_world KEY_F5 (UIState_init live_world)
           (wf_init live_world)).
Defined.

Lemma handle_input_action_quit w ch st st1 :
  handle_input w ch st = inr (st1, Some quit) <->
  st1 = st /\ edit_mode st = false /\ key_in ch [ord "q"; 27] = true /\
  _confirm_quit w st = true.
Proof.
  split.
  - unfold handle_input.
    repeat match goal with
           | |- context [if ?c then _ else _] => destruct c eqn:?
           | |- context [mbind _ ?m] => destruct m; cbn
           end; cbn; intros H; try discriminate H; inversion H; subst;
      repeat match goal with
             | H : _ && _ = true |- _ => apply andb_true_iff in H as [? ?]
             | H : negb _ = true |- _ => apply negb_true_iff in H
             end; auto.
  - intros (-> & He & Hk & Hc). apply key_in_cases in Hk.
    repeat (destruct Hk as [<-|Hk]; [|]); try contradiction;
      unfold handle_input; rewrite He; cbn - [_confirm_quit]; now rewrite Hc.
Qed.

Lemma confirm_quit_true w st :
  _confirm_quit w st = true <->
  (proc st = None \/
   (exists p rc, proc st = Some p /\ poll w p = Some rc) \/
   key_in (confirm_getch w) [ord "y"; ord "Y"] = true).
Proof.
  unfold _confirm_quit. destruct (proc st) as [p|]; [|intuition].
  destruct (poll w p) as [rc|] eqn:Hp.
  - split; [|reflexivity]. intros _. right. left. now exists p, rc.
  - split.
    + intros H. now right; right.
    + intros [H|[(p' & rc & H & H')|H]]; [discriminate H| |exact H].
      inversion H; subst. congruence.
Qed.

(** X5. A turn of the loop leaves the loop exactly when a quit key ('q' or
    Escape) comes outside the editor and either no process is live or the
    prompt reads 'y' or 'Y'; the state is then unchanged. *)
Theorem loop_breaks_iff (w : World) (ch : Z) (st st' : UIState) :
  loop_body w ch st = inr (Break st') <->
  st' = st /\ edit_mode st = false /\ key_in ch [ord "q"; 27] = true /\
  (proc st = None \/
   (exists p rc, proc st = Some p /\ poll w p = Some rc) \/
   key_in (confirm_getch w) [ord "y"; ord "Y"] = true).
Proof.
  rewrite <- confirm_quit_true, <- handle_input_action_quit.
  unfold loop_body. split.
  - destruct (handle_input w ch st) as [e|[st1 [[]|]]]; cbn; try discriminate.
    + intros H. now inversion H.
    + destruct (may_start w st1); [|discriminate].
      destruct (start_job w st1) as [?|[? ?]]; discriminate.
  - intros ->. reflexivity.
Qed.

(** ** Who writes what *)

(** X6. The key handler never touches what the worker writes: whatever the
    key, the log buffer, the mode and the process handle stay as they
    are. *)
Theorem handle_input_keeps_job_state (w : World) (ch : Z) (st st' : UIState)
    (a : option Action) :
  handle_input w ch st = inr (st', a) ->
  logs st' = logs st /\ mode st' = mode st /\ proc st' = proc st.
Proof.
  intros H. unfold handle_input in H.
  repeat match type of H with
         | context [if ?c then _ else _] => destruct c eqn:?
         | context [mbind _ ?m] => destruct m eqn:?; cbn in H
         end;
    try discriminate H; inversion H; subst; clear H; auto;
    rewrite ?require_serial_eq; auto.
Qed.

Lemma handle_input_keeps_job_state_witness :
  logs editing_state = logs (set_field_index 2 (UIState_init live_world)) /\
  mode editing_state = mode (set_field_index 2 (UIState_init live_world)) /\
  proc editing_state = proc (set_field_index 2 (UIState_init live_world)).
Proof.
  apply (handle_input_keeps_job_state live_world 10
           (set_field_index 2 (UIState_init live_world)) editing_state None).
  vm_compute. reflexivity.
Defined.

Lemma log_all_frame appends : forall st,
  env (log_all appends st) = env st /\ flags (log_all appends st) = flags st /\
  field_index (log_all appends st) = field_index st /\
  edit_mode (log_all appends st) = edit_mode st /\
  input_buffer (log_all appends st) = input_buffer st /\
  theme_dark (log_all appends st) = theme_dark st /\
  proc (log_all appends st) = proc st /\
  mode (log_all appends st) = mode st /\
  message (log_all appends st) = message st.
Proof.
  induction appends as [|a rest IH]; intros st; [repeat split|].
  cbn [log_all fold_left]. specialize (IH (log (fst a) (snd a) st)).
  unfold log_all in IH. cbn in IH. exact IH.
Qed.

Lemma outcome_frame m msg ts line s :
  let s' := log ts line (set_mode m msg s) in
  env s' = env s /\ flags s' = flags s /\ field_index s' = field_index s /\
  edit_mode s' = edit_mode s /\ input_buffer s' = input_buffer s /\
  theme_dark s' = theme_dark s /\ proc s' = proc s.
Proof. unfold set_mode. destruct (py_truthy msg); cbn; repeat split. Qed.

(** X7. The worker never touches what the key handler writes: the fields,
    the flags, the selection, the editor and the theme are the same after
    [_run]. The process handle is the new one if the spawn succeeded and the
    old one otherwise. *)
Theorem run_keeps_ui_state (w : World) (x : Execution) (st : UIState) :
  env (_run w x st) = env st /\ flags (_run w x st) = flags st /\
  field_index (_run w x st) = field_index st /\
  edit_mode (_run w x st) = edit_mode st /\
  input_buffer (_run w x st) = input_buffer st /\
  theme_dark (_run w x st) = theme_dark st /\
  proc (_run w x st) =
    match popen x with PopenOk p => Some p | _ => proc st end.
Proof.
  unfold _run, on_exception, drain.
  destruct (popen x) as [p| |e]; try apply outcome_frame.
  pose proof (log_all_frame
                (map (fun tl => (fst tl, rstrip_nl (snd tl))) (output x))
                (set_proc (Some p) st)) as (He & Hf & Hi & Hed & Hb & Ht & Hp & _).
  cbn in He, Hf, Hi, Hed, Hb, Ht, Hp.
  destruct (ending x) as [rc|e]; [destruct (rc =? 0)|];
    match goal with
    | |- context [log ?ts ?line (set_mode ?m ?msg ?s)] =>
        destruct (outcome_frame m msg ts line s) as (-> & -> & -> & -> & -> & -> & ->)
    end; repeat split; assumption.
Qed.

(** ** The editor is modal *)

Lemma editing_state_wf : wf editing_state.
Proof.
  apply (handle_input_wf live_world 10
           (set_field_index 2 (UIState_init live_world)) _ None).
  - apply (wf_update (UIState_init live_world)); cbn; auto using wf_init;
      try discriminate. rewrite total_items_eq. lia.
  - vm_compute. reflexivity.
Qed.

(** X8. While the editor is open (in a well-formed state) every key is
    handled and none of them quits or starts a job; the theme, the flags,
    the selection and the message stay, and of the fields only the one being
    edited can change. *)
Theorem editor_is_modal (w : World) (ch : Z) (st : UIState) :
  wf st -> edit_mode st = true ->
  exists st' entry,
    handle_input w ch st = inr (st', None) /\
    fields_order !! Z.to_nat (field_index st) = Some entry /\
    theme_dark st' = theme_dark st /\ flags st' = flags st /\
    field_index st' = field_index st /\ message st' = message st /\
    (forall k, k <> fst entry -> env st' !! k = env st !! k).
Proof.
  intros Hwf He. rewrite (handle_input_editing w ch st He).
  destruct (py_index_lt fields_order (field_index st)) as (entry & Hidx & Hlook);
    [now apply Hwf|].
  rewrite Hidx.
  repeat match goal with
         | |- context [if ?c then _ else _] => destruct c
         end; eexists; exists entry; (split; [reflexivity|]);
    cbn; repeat split; auto.
  intros k Hk. now rewrite lookup_insert_ne.
Qed.

Lemma editor_is_modal_witness :
  exists st' entry,
    handle_input live_world (ord "q") editing_state = inr (st', None) /\
    fields_order !! Z.to_nat (field_index editing_state) = Some entry /\
    theme_dark st' = theme_dark editing_state /\ flags st' = flags editing_state /\
    field_index st' = field_index editing_state /\
    message st' = message editing_state /\
    (forall k, k <> fst entry -> env st' !! k = env editing_state !! k).
Proof.
  apply (editor_is_modal live_world (ord "q") editing_state).
  - exact editing_state_wf.
  - reflexivity.
Defined.

(** ** Typing *)

Lemma append_cons (x : ascii) (a s : string) :
  String x a +:+ s = String x (a +:+ s).
Proof. reflexivity. Qed.

Lemma append_one_assoc (a : string) (c : ascii) (r : string) :
  (a +:+ String c "") +:+ r = a +:+ String c r.
Proof.
  induction a as [|x a IH]; [reflexivity|].
  rewrite !append_cons. f_equal. exact IH.
Qed.

Lemma append_empty_r (a : string) : a +:+ "" = a.
Proof.
  induction a as [|x a IH]; [reflexivity|].
  rewrite append_cons. f_equal. exact IH.
Qed.

Lemma all_continuation_append (a : string) (c : ascii) :
  is_continuation c = false -> all_continuation (a +:+ String c "") = false.
Proof.
  intros Hc. induction a as [|x a IH].
  - change ("" +:+ String c "") with (String c "").
    cbn [all_continuation]. now rewrite Hc.
  - rewrite append_cons. cbn [all_continuation]. rewrite IH.
    apply andb_false_r.
Qed.

Lemma py_drop_last_append (a : string) (c : ascii) :
  is_continuation c = false -> py_drop_last (a +:+ String c "") = a.
Proof.
  intros Hc. induction a as [|x a IH]; [reflexivity|].
  rewrite append_cons. cbn [py_drop_last].
  now rewrite all_continuation_append, IH.
Qed.

Lemma continuation_ge_128 (c : ascii) :
  is_continuation c = true -> (128 <= nat_of_ascii c)%nat.
Proof.
  destruct c as [b0 b1 b2 b3 b4 b5 b6 b7]. cbn [is_continuation].
  destruct b7; [|discriminate]. intros _.
  destruct b0, b1, b2, b3, b4, b5, b6; vm_compute; lia.
Qed.

Lemma printable_not_continuation (ch : Z) :
  printable ch = true -> is_continuation (chr ch) = false.
Proof.
  intros Hp. apply andb_true_iff in Hp as [Hlo Hhi].
  apply Z.leb_le in Hlo, Hhi.
  destruct (is_continuation (chr ch)) eqn:E; [|reflexivity].
  apply continuation_ge_128 in E. unfold chr in E.
  rewrite nat_ascii_embedding in E by lia. lia.
Qed.

Lemma set_input_buffer_same st : set_input_buffer (input_buffer st) st = st.
Proof. now destruct st. Qed.

Lemma printable_key w ch st :
  edit_mode st = true -> printable ch = true ->
  handle_input w ch st =
    inr (set_input_buffer (input_buffer st +:+ String (chr ch) "") st, None).
Proof.
  intros He Hp. rewrite (handle_input_editing w ch st He).
  unfold printable in Hp. rewrite Hp.
  apply andb_true_iff in Hp as [Hlo Hhi].
  apply Z.leb_le in Hlo, Hhi.
  unfold key_in, existsb, KEY_BACKSPACE.
  repeat match goal with
         | |- context [ch =? ?k] =>
             destruct (Z.eqb_spec ch k) as [?|_]; [lia|]
         end.
  reflexivity.
Qed.

Lemma typing_appends w keys : forall st,
  edit_mode st = true ->
  Forall (fun ch => printable ch = true) keys ->
  handle_inputs w keys st
  = inr (set_input_buffer (input_buffer st +:+ text_of_keys keys) st).
Proof.
  induction keys as [|ch rest IH]; intros st He Hk.
  - cbn. now rewrite append_empty_r, set_input_buffer_same.
  - inversion Hk as [|? ? Hch Hrest]; subst.
    cbn [handle_inputs]. rewrite (printable_key w ch st He Hch).
    cbn [mbind py_bind fst]. rewrite IH by (auto; exact Hrest).
    cbn [input_buffer set_input_buffer text_of_keys fold_right].
    now rewrite append_one_assoc.
Qed.

(** X9. In the editor a run of printable keys (codes 32 to 126) is handled
    by appending the characters, in order, to the input buffer; nothing else
    changes. *)
Theorem typing_appends_text (w : World) (keys : list Z) (st : UIState) :
  edit_mode st = true ->
  Forall (fun ch => printable ch = true) keys ->
  handle_inputs w keys st
  = inr (set_input_buffer (input_buffer st +:+ text_of_keys keys) st).
Proof. apply typing_appends. Qed.

Lemma typing_appends_text_witness :
  handle_inputs live_world [ord "-"; ord "q"; ord "c"] editing_state
  = inr (set_input_buffer "nexSoft-qc" editing_state).
Proof.
  apply (typing_appends_text live_world [ord "-"; ord "q"; ord "c"] editing_state).
  - reflexivity.
  - repeat constructor.
Defined.

Lemma backspace_key w ch st :
  edit_mode st = true -> key_in ch [KEY_BACKSPACE; 127; 8] = true ->
  handle_input w ch st =
    inr (set_input_buffer (py_drop_last (input_buffer st)) st, None).
Proof.
  intros He Hk. rewrite (handle_input_editing w ch st He).
  apply key_in_cases in Hk.
  repeat (destruct Hk as [<-|Hk]; [reflexivity|]). contradiction.
Qed.

(** X10. In the editor a printable key followed by a backspace key
    (KEY_BACKSPACE, 127 or 8) gives the state back, and a backspace on an
    empty input buffer changes nothing. *)
Theorem backspace_undoes_key (w : World) (ch bs : Z) (st : UIState) :
  edit_mode st = true ->
  key_in bs [KEY_BACKSPACE; 127; 8] = true ->
  (printable ch = true -> handle_inputs w [ch; bs] st = inr st) /\
  (input_buffer st = "" -> handle_input w bs st = inr (st, None)).
Proof.
  intros He Hbs. split.
  - intros Hp. cbn [handle_inputs].
    rewrite (printable_key w ch st He Hp). cbn [mbind py_bind fst].
    rewrite (backspace_key w bs (set_input_buffer _ st) He Hbs).
    cbn [mbind py_bind fst].
    cbn [input_buffer set_input_buffer].
    rewrite py_drop_last_append by now apply printable_not_continuation.
    now destruct st.
  - intros Hb. rewrite (backspace_key w bs st He Hbs), Hb. cbn.
    rewrite <- Hb. now rewrite set_input_buffer_same.
Qed.

Lemma backspace_undoes_key_witness :
  handle_inputs live_world [ord "x"; 127] editing_state = inr editing_state.
Proof.
  apply (proj1 (backspace_undoes_key live_world (ord "x") 127 editing_state
                  eq_refl eq_refl)).
  reflexivity.
Defined.

Lemma handle_inputs_app w ks1 ks2 : forall st st1,
  handle_inputs w ks1 st = inr st1 ->
  handle_inputs w (ks1 ++ ks2) st = handle_inputs w ks2 st1.
Proof.
  induction ks1 as [|ch rest IH]; intros st st1 H.
  - inversion H. reflexivity.
  - cbn [handle_inputs app] in *.
    destruct (handle_input w ch st) as [e|[st' a]]; cbn in *; [discriminate|].
    now apply IH.
Qed.

(** X11. An edit session composes: Enter on a field, a run of printable
    keys, then Enter (10 or 13) stores the previous value of the field
    followed by the typed text, closes the editor and changes no other field,
    flag or setting. *)
Theorem edit_session_appends (w : World) (st : UIState) (i : nat)
    (key label : string) (opener closer : Z) (typed : list Z) :
  edit_mode st = false ->
  field_index st = Z.of_nat i ->
  fields_order !! i = Some (key, label) ->
  key_in opener [KEY_ENTER; 10; 13] = true ->
  Forall (fun ch => printable ch = true) typed ->
  key_in closer [10; 13] = true ->
  let text := default "" (env st !! key) +:+ text_of_keys typed in
  handle_inputs w (opener :: typed ++ [closer]) st
  = inr (set_input_buffer text (set_env (<[key := text]> (env st)) st)).
Proof.
  intros He Hi Hf Ho Ht Hc text.
  cbn [handle_inputs]. rewrite (enter_on_field w opener st i key label He Hi Hf Ho).
  cbn [mbind py_bind fst].
  set (st1 := set_edit_mode true _).
  rewrite (handle_inputs_app w typed [closer] st1
             (set_input_buffer (input_buffer st1 +:+ text_of_keys typed) st1))
    by (apply typing_appends; [reflexivity|exact Ht]).
  cbn [handle_inputs].
  rewrite handle_input_editing by reflexivity.
  apply key_in_cases in Hc.
  repeat (destruct Hc as [<-|Hc]; [|]); try contradiction;
    cbn [key_in existsb Z.eqb orb]; cbn - [py_index fields_order text_of_keys];
    rewrite Hi, (py_index_field i _ Hf);
    subst st1 text; unfold mbind, py_bind, mret, py_ret; cbn [fst];
    destruct st; cbn in He |- *; subst; reflexivity.
Qed.

Lemma edit_session_appends_witness :
  exists st',
    handle_inputs live_world [10; ord "2"; 13]
      (set_field_index 2 (UIState_init live_world)) = inr st' /\
    env st' !! "SERVICE_NAME" = Some "nexSoft2" /\ edit_mode st' = false.
Proof.
  eexists. split.
  - apply (edit_session_appends live_world
             (set_field_index 2 (UIState_init live_world)) 2
             "SERVICE_NAME" "Service name" 10 13 [ord "2"]);
      try reflexivity.
    repeat constructor.
  - split; vm_compute; reflexivity.
Defined.

(** ** Moving the selection *)

Lemma nav_key_moves w ch st :
  edit_mode st = false -> nav_key ch = true ->
  handle_input w ch st =
    inr (set_field_index ((field_index st + nav_delta ch) `mod` total_items) st, None).
Proof.
  intros He Hk. apply key_in_cases in Hk.
  repeat (destruct Hk as [<-|Hk]; [|]); try contradiction;
    unfold handle_input; rewrite He; reflexivity.
Qed.

Lemma nav_keys_move w keys : forall st,
  edit_mode st = false -> in_range st ->
  Forall (fun ch => nav_key ch = true) keys ->
  handle_inputs w keys st
  = inr (set_field_index ((field_index st + nav_sum keys) `mod` total_items) st).
Proof.
  induction keys as [|ch rest IH]; intros st He Hr Hk.
  - cbn. rewrite Z.add_0_r, Z.mod_small by exact Hr.
    now rewrite set_field_index_same.
  - inversion Hk as [|? ? Hch Hrest]; subst.
    cbn [handle_inputs]. rewrite (nav_key_moves w ch st He Hch).
    cbn [mbind py_bind fst].
    rewrite IH; [|exact He|apply mod_total_items|exact Hrest].
    cbn [field_index set_field_index nav_sum fold_right].
    rewrite Z.add_mod_idemp_l by (rewrite total_items_eq; lia).
    now rewrite Z.add_assoc.
Qed.

(** X12. Outside the editor a run of up/down keys moves the selection by
    the number of downs minus the number of ups, modulo the 23 items, and
    changes nothing else; so the order of the keys does not matter, and 23
    downs come back to the same item. *)
Theorem navigation_net_move (w : World) (keys : list Z) (st : UIState) :
  edit_mode st = false -> in_range st ->
  Forall (fun ch => nav_key ch = true) keys ->
  handle_inputs w keys st
  = inr (set_field_index ((field_index st + nav_sum keys) `mod` total_items) st).
Proof. apply nav_keys_move. Qed.

Lemma navigation_net_move_witness :
  handle_inputs live_world (repeat KEY_DOWN 23) start_selected_state
  = inr start_selected_state.
Proof.
  apply (navigation_net_move live_world (repeat KEY_DOWN 23) start_selected_state).
  - reflexivity.
  - unfold in_range. rewrite total_items_eq. cbn. lia.
  - repeat constructor.
Defined.

(** ** Toggling a flag *)

(** X13. Outside the editor, in a well-formed state with flag number [i]
    selected, a left or right key is handled by negating that flag in place:
    the other flags, the order of the dictionary and the rest of the state
    stay as they are. *)
Theorem arrow_toggles_selected_flag (w : World) (ch : Z) (st : UIState)
    (i : nat) (key label : string) :
  wf st -> edit_mode st = false ->
  field_index st = len fields_order + Z.of_nat i ->
  toggle_order !! i = Some (key, label) ->
  key_in ch [KEY_LEFT; KEY_RIGHT] = true ->
  exists v,
    dict_get key (flags st) = Some v /\
    handle_input w ch st
      = inr (set_flags (dict_set key (negb v) (flags st)) st, None) /\
    dict_get key (dict_set key (negb v) (flags st)) = Some (negb v) /\
    (forall k, k <> key ->
       dict_get k (dict_set key (negb v) (flags st)) = dict_get k (flags st)) /\
    map fst (dict_set key (negb v) (flags st)) = map fst (flags st).
Proof.
  intros Hwf He Hi Ht Hk.
  destruct (wf_flags st Hwf key) as [v Hv];
    [exact (lookup_fst_In toggle_order i (key, label) Ht)|].
  exists v. split; [exact Hv|]. split; [|split; [|split]].
  - now apply (arrow_on_flag_toggles w ch st i key label v).
  - apply dict_get_set_eq.
  - intros k Hne. now apply dict_get_set_ne.
  - apply dict_set_keys. now exists v.
Qed.

Lemma flag_selected_state_wf : wf flag_selected_state.
Proof.
  apply (wf_update (UIState_init live_world)); cbn; auto using wf_init;
    try discriminate. rewrite total_items_eq. lia.
Qed.

Lemma arrow_toggles_selected_flag_witness :
  exists v,
    dict_get "ENABLE_RS232_TEST" (flags flag_selected_state) = Some v /\
    handle_input live_world KEY_RIGHT flag_selected_state
      = inr (set_flags (dict_set "ENABLE_RS232_TEST" (negb v)
                          (flags flag_selected_state)) flag_selected_state, None) /\
    dict_get "ENABLE_RS232_TEST"
      (dict_set "ENABLE_RS232_TEST" (negb v) (flags flag_selected_state))
      = Some (negb v) /\
    (forall k, k <> "ENABLE_RS232_TEST" ->
       dict_get k (dict_set "ENABLE_RS232_TEST" (negb v) (flags flag_selected_state))
       = dict_get k (flags flag_selected_state)) /\
    map fst (dict_set "ENABLE_RS232_TEST" (negb v) (flags flag_selected_state))
    = map fst (flags flag_selected_state).
Proof.
  apply (arrow_toggles_selected_flag live_world KEY_RIGHT flag_selected_state
           0 "ENABLE_RS232_TEST" "RS232 loopback test");
    try reflexivity.
  exact flag_selected_state_wf.
Defined.

(** ** The environment of the child *)

Lemma dict_get_not_in {V} k (d : list (string * V)) :
  ~ In k (map fst d) -> dict_get k d = None.
Proof.
  induction d as [|[k0 v0] rest IH]; cbn; [reflexivity|].
  intros Hn. destruct (String.eqb_spec k k0) as [->|_]; [tauto|].
  apply IH. tauto.
Qed.

Lemma fold_flags_lookup (l : list (string * bool)) : forall (m : gmap string string) k,
  NoDup (map fst l) ->
  fold_left (fun e kv => <[fst kv := flag_env (snd kv)]> e) l m !! k =
  match dict_get k l with
  | Some v => Some (flag_env v)
  | None => m !! k
  end.
Proof.
  induction l as [|[k0 v0] rest IH]; intros m k Hnd; [reflexivity|].
  apply NoDup_cons in Hnd as [Hnot Hnd].
  cbn [fold_left dict_get fst snd]. rewrite IH by exact Hnd.
  destruct (String.eqb_spec k k0) as [->|Hne].
  - rewrite dict_get_not_in; [apply lookup_insert_eq|].
    intros Hin. apply Hnot. now apply list_elem_of_In.
  - destruct (dict_get k rest); [reflexivity|].
    now rewrite lookup_insert_ne.
Qed.

(** X14. The environment of the child, in a well-formed state: a flag key
    holds "1" or "0" according to the flag, whatever the fields or
    [os.environ] say; any other key holds the field of that name if there is
    one, else what [os.environ] holds. *)
Theorem start_job_env_lookup (w : World) (st : UIState) (k : string) :
  wf st ->
  start_job_env w st !! k =
  match dict_get k (flags st) with
  | Some v => Some (if v then "1" else "0")
  | None =>
      match env st !! k with
      | Some s => Some s
      | None => os_environ w !! k
      end
  end.
Proof.
  intros Hwf. unfold start_job_env.
  rewrite fold_flags_lookup by apply Hwf.
  destruct (dict_get k (flags st)); [reflexivity|].
  rewrite lookup_union. destruct (env st !! k), (os_environ w !! k); reflexivity.
Qed.

Lemma start_job_env_lookup_witness :
  start_job_env live_world (UIState_init live_world) !! "ENABLE_RS232_MODEM"
  = Some "0".
Proof.
  rewrite (start_job_env_lookup live_world (UIState_init live_world)
             "ENABLE_RS232_MODEM" (wf_init live_world)).
  reflexivity.
Defined.

(** X15. The RS232 modem flag is not an argument: whatever value it is set
    to, the argument vector is the same. *)
Theorem modem_flag_not_in_args (w : World) (st : UIState) (v : bool) :
  start_job_args w (set_flags (dict_set "ENABLE_RS232_MODEM" v (flags st)) st)
  = start_job_args w st.
Proof.
  unfold start_job_args, dict_getitem. cbn [flags set_flags].
  rewrite !dict_get_set_ne by discriminate. reflexivity.
Qed.

(** ** Reading the flags back from the arguments *)

Lemma in_interface_args f t :
  In t (interface_args f) <->
  exists k on off,
    In (k, on, off) interface_flag_table /\
    ((f k = true /\ on = t) \/ (f k = false /\ off = Some t)).
Proof.
  unfold interface_args. rewrite <- list_elem_of_In, list_elem_of_omap. split.
  - intros ([[k on] off] & Hrow & Hg). exists k, on, off.
    split; [now apply list_elem_of_In|].
    destruct (f k); [left|right]; split; congruence.
  - intros (k & on & off & Hrow & Hg). exists (k, on, off).
    split; [now apply list_elem_of_In|].
    destruct Hg as [[-> ->]|[-> ->]]; reflexivity.
Qed.

Ltac decode_fwd :=
  let Hin := fresh "Hin" in
  let Hrow := fresh "Hrow" in
  let Hg := fresh "Hg" in
  intros Hin;
  apply in_interface_args in Hin as (? & ? & ? & Hrow & Hg);
  cbn in Hrow;
  repeat (destruct Hrow as [Hrow|Hrow];
          [inversion Hrow; subst; clear Hrow;
           destruct Hg as [[? Hg]|[? Hg]];
           first [discriminate Hg | assumption]|]);
  contradiction.

Ltac decode_bwd K ON OFF :=
  let Hf := fresh "Hf" in
  intros Hf; apply in_interface_args; exists K, ON, OFF;
  split; [cbn; tauto|]; (left + right); split; [exact Hf|reflexivity].

Lemma interface_args_decode f :
  let present t := In t (interface_args f) in
  (present "--enable-rs232-test" <-> f "ENABLE_RS232_TEST" = true) /\
  (present "--disable-rs232-test" <-> f "ENABLE_RS232_TEST" = false) /\
  (present "--no-update" <-> f "NO_UPDATE" = true) /\
  (present "--no-timeshift" <-> f "NO_TIMESHIFT" = true) /\
  (present "--clear-logs" <-> f "CLEAR_LOGS" = true) /\
  (present "--no-nexSoft-bkp" <-> f "NO_NEXSOFT_BKP" = true) /\
  (present "--remove-static-ip-service" <-> f "REMOVE_STATIC_IP_SERVICE" = true) /\
  (present "--keep-static-ip-service" <-> f "REMOVE_STATIC_IP_SERVICE" = false) /\
  (present "--enable-secondary-ip-service" <-> f "ENABLE_SECONDARY_IP_SERVICE" = true) /\
  (present "--disable-secondary-ip-service" <-> f "ENABLE_SECONDARY_IP_SERVICE" = false) /\
  (present "--overwrite-ids" <-> f "OVERWRITE_IDS" = true) /\
  (present "--non-interactive" <-> f "NON_INTERACTIVE" = true).
Proof.
  intros present. subst present. cbv beta.
  repeat split; try decode_fwd.
  - decode_bwd "ENABLE_RS232_TEST" "--enable-rs232-test" (Some "--disable-rs232-test").
  - decode_bwd "ENABLE_RS232_TEST" "--enable-rs232-test" (Some "--disable-rs232-test").
  - decode_bwd "NO_UPDATE" "--no-update" (@None string).
  - decode_bwd "NO_TIMESHIFT" "--no-timeshift" (@None string).
  - decode_bwd "CLEAR_LOGS" "--clear-logs" (@None string).
  - decode_bwd "NO_NEXSOFT_BKP" "--no-nexSoft-bkp" (@None string).
  - decode_bwd "REMOVE_STATIC_IP_SERVICE" "--remove-static-ip-service" (Some "--keep-static-ip-service").
  - decode_bwd "REMOVE_STATIC_IP_SERVICE" "--remove-static-ip-service" (Some "--keep-static-ip-service").
  - decode_bwd "ENABLE_SECONDARY_IP_SERVICE" "--enable-secondary-ip-service" (Some "--disable-secondary-ip-service").
  - decode_bwd "ENABLE_SECONDARY_IP_SERVICE" "--enable-secondary-ip-service" (Some "--disable-secondary-ip-service").
  - decode_bwd "OVERWRITE_IDS" "--overwrite-ids" (@None string).
  - decode_bwd "NON_INTERACTIVE" "--non-interactive" (@None string).
Qed.

(** X16. The argument vector can be read back: after the script path, each
    of the nine flags that are passed as arguments shows by which of its
    tokens is present, so two flag assignments with the same vector agree on
    these nine flags. *)
Theorem start_job_args_decode (w : World) (st : UIState) (f : string -> bool)
    (args : list string) :
  flags_are f st ->
  start_job_args w st = inr args ->
  let present t := In t (tl args) in
  (present "--enable-rs232-test" <-> f "ENABLE_RS232_TEST" = true) /\
  (present "--disable-rs232-test" <-> f "ENABLE_RS232_TEST" = false) /\
  (present "--no-update" <-> f "NO_UPDATE" = true) /\
  (present "--no-timeshift" <-> f "NO_TIMESHIFT" = true) /\
  (present "--clear-logs" <-> f "CLEAR_LOGS" = true) /\
  (present "--no-nexSoft-bkp" <-> f "NO_NEXSOFT_BKP" = true) /\
  (present "--remove-static-ip-service" <-> f "REMOVE_STATIC_IP_SERVICE" = true) /\
  (present "--keep-static-ip-service" <-> f "REMOVE_STATIC_IP_SERVICE" = false) /\
  (present "--enable-secondary-ip-service" <-> f "ENABLE_SECONDARY_IP_SERVICE" = true) /\
  (present "--disable-secondary-ip-service" <-> f "ENABLE_SECONDARY_IP_SERVICE" = false) /\
  (present "--overwrite-ids" <-> f "OVERWRITE_IDS" = true) /\
  (present "--non-interactive" <-> f "NON_INTERACTIVE" = true).
Proof.
  intros Hf Hargs. rewrite (start_job_args_table w st f Hf) in Hargs.
  inversion Hargs; subst. cbn [tl]. apply interface_args_decode.
Qed.

Lemma qc_only_flags : flags_are rs232_and_no_update qc_only_state.
Proof.
  intros k Hk. cbn in Hk.
  repeat (destruct Hk as [<-|Hk]; [reflexivity|]). contradiction.
Qed.

Lemma start_job_args_decode_witness :
  In "--no-update"
    (tl [SCRIPT_PATH live_world; "--enable-rs232-test"; "--no-update";
         "--keep-static-ip-service"; "--disable-secondary-ip-service"])
  <-> rs232_and_no_update "NO_UPDATE" = true.
Proof.
  refine (proj1 (proj2 (proj2 (start_job_args_decode live_world qc_only_state
            rs232_and_no_update _ qc_only_flags _)))).
  vm_compute. reflexivity.
Defined.

(** ** The log buffer as a whole *)

Lemma py_last_n_app {A} (n : nat) (l r : list A) :
  py_last_n n (py_last_n n l ++ r) = py_last_n n (l ++ r).
Proof.
  unfold py_last_n. rewrite !length_app, length_drop.
  destruct (Nat.le_gt_cases (length l) n) as [Hle|Hgt].
  - replace (length l - n)%nat with 0%nat by lia. cbn [drop].
    now rewrite Nat.sub_0_r.
  - replace (length l - (length l - n) + length r - n)%nat with (length r) by lia.
    replace (length l + length r - n)%nat
      with ((length l - n) + length r)%nat by lia.
    rewrite <- drop_drop. f_equal.
    rewrite drop_app_le by lia. reflexivity.
Qed.

Lemma py_last_n_short {A} (n : nat) (l : list A) :
  (length l <= n)%nat -> py_last_n n l = l.
Proof.
  intros H. unfold py_last_n.
  now replace (length l - n)%nat with 0%nat by lia.
Qed.

Lemma log_all_logs appends : forall st,
  (length (logs st) <= 500)%nat ->
  logs (log_all appends st)
  = py_last_n 500 (logs st ++ map (fun a => stamp (fst a) (snd a)) appends).
Proof.
  induction appends as [|a rest IH]; intros st Hst.
  - cbn. now rewrite app_nil_r, py_last_n_short.
  - cbn [log_all fold_left map]. fold (log_all rest (log (fst a) (snd a) st)).
    rewrite IH by apply log_length.
    cbn [logs log set_logs]. rewrite py_last_n_app.
    now rewrite <- app_assoc.
Qed.

(** X17. A run of [log] calls leaves in the buffer the last 500 lines of
    what was there followed by the new stamped lines, in the order of the
    calls. *)
Theorem log_all_is_tail (appends : list (string * string)) (st : UIState) :
  (length (logs st) <= 500)%nat ->
  logs (log_all appends st)
  = py_last_n 500 (logs st ++ map (fun a => stamp (fst a) (snd a)) appends).
Proof. apply log_all_logs. Qed.

Lemma log_all_is_tail_witness :
  logs (log_all [("12:00:01", "A"); ("12:00:02", "B")] (UIState_init live_world))
  = ["[12:00:01] A"; "[12:00:02] B"].
Proof.
  rewrite (log_all_is_tail [("12:00:01", "A"); ("12:00:02", "B")]
             (UIState_init live_world)); [reflexivity|].
  cbn. lia.
Defined.

Lemma log_set_mode_logs m msg ts line s :
  logs (log ts line (set_mode m msg s))
  = py_last_n 500 (logs s ++ [stamp ts line]).
Proof. unfold set_mode. destruct (py_truthy msg); reflexivity. Qed.

(** X18. After a process that was spawned and has exited, the log buffer is
    the last 500 lines of: what it held before, then the output lines in
    the order read, each stamped and without its trailing newlines, then the
    one summary line. *)
Theorem run_logs_output_in_order (w : World) (x : Execution) (st : UIState)
    (p : Popen) (rc : Z) :
  (length (logs st) <= 500)%nat ->
  popen x = PopenOk p -> ending x = Exited rc ->
  logs (_run w x st)
  = py_last_n 500
      (logs st
       ++ map (fun tl => stamp (fst tl) (rstrip_nl (snd tl))) (output x)
       ++ [stamp (end_time x)
             (if rc =? 0 then "Job finished: OK"
              else "Job finished: ERR rc=" +:+ pretty rc)]).
Proof.
  intros Hst Hp He. unfold _run. rewrite Hp, He.
  assert (Hd : logs (drain x (set_proc (Some p) st))
               = py_last_n 500
                   (logs st ++ map (fun tl => stamp (fst tl) (rstrip_nl (snd tl)))
                                 (output x))).
  { unfold drain. rewrite log_all_logs by exact Hst.
    cbn [logs set_proc]. now rewrite map_map. }
  destruct (rc =? 0);
    rewrite log_set_mode_logs, Hd, py_last_n_app, <- app_assoc; reflexivity.
Qed.

Lemma run_logs_output_in_order_witness :
  logs (_run live_world exit2_execution (UIState_init live_world))
  = ["[12:00:01] A"; "[12:00:02] B"; "[12:00:03] Job finished: ERR rc=2"].
Proof.
  rewrite (run_logs_output_in_order live_world exit2_execution
             (UIState_init live_world) 7%nat 2); try reflexivity.
  cbn. lia.
Defined.

(** ** Trailing newlines *)

Lemma rstrip_nl_split (s : string) :
  exists n, s = rstrip_nl s +:+ newlines n /\
            (rstrip_nl s = "" -> s = newlines n).
Proof.
  induction s as [|c s (n & Hs & Hempty)].
  - exists 0%nat. split; reflexivity.
  - cbn [rstrip_nl]. destruct (rstrip_nl s) as [|d r] eqn:Hr.
    + destruct (Ascii.eqb_spec c newline) as [->|Hne].
      * exists (S n). cbn. split; [|intros _]; now rewrite (Hempty eq_refl).
      * exists n. split; [|discriminate].
        rewrite append_cons. f_equal. exact Hs.
    + exists n. split; [|discriminate].
      rewrite append_cons. f_equal. exact Hs.
Qed.

Lemma rstrip_nl_no_newline (s : string) : ends_with_newline (rstrip_nl s) = false.
Proof.
  induction s as [|c s IH]; [reflexivity|].
  cbn [rstrip_nl]. destruct (rstrip_nl s) as [|d r] eqn:Hr.
  - destruct (Ascii.eqb_spec c newline) as [->|Hne]; [reflexivity|].
    cbn. now apply Ascii.eqb_neq.
  - exact IH.
Qed.

Lemma rstrip_nl_fixed (s : string) :
  ends_with_newline s = false -> rstrip_nl s = s.
Proof.
  induction s as [|c s IH]; [reflexivity|].
  intros H. cbn [rstrip_nl]. destruct s as [|d r].
  - cbn in *. now rewrite H.
  - rewrite IH by exact H. reflexivity.
Qed.

Lemma ends_with_newline_app (a : string) (c : ascii) (r : string) :
  ends_with_newline (a +:+ String c r) = ends_with_newline (String c r).
Proof.
  induction a as [|x a IH]; [reflexivity|].
  rewrite append_cons. cbn [ends_with_newline].
  destruct (a +:+ String c r) eqn:E; [|exact IH].
  destruct a; discriminate E.
Qed.

Lemma stamp_no_newline (ts line : string) :
  ends_with_newline line = false -> ends_with_newline (stamp ts line) = false.
Proof.
  intros H. unfold stamp.
  change ("[" +:+ ts +:+ "] " +:+ line)
    with (String "[" (ts +:+ String "]" (String " " line))).
  cbn [ends_with_newline].
  destruct (ts +:+ String "]" (String " " line)) eqn:E;
    [destruct ts; discriminate E|].
  rewrite <- E, ends_with_newline_app. cbn [ends_with_newline].
  destruct line; [reflexivity|exact H].
Qed.

(** X19. What the worker logs for an output line: the line without its
    trailing newlines and with nothing else removed (the line read is the
    logged text followed by newlines only), behind its time stamp; the
    logged entry never ends with a newline, and a line read without a
    trailing newline is logged as it is. *)
Theorem output_line_logged_clean (ts raw : string) (st : UIState) :
  logs (log ts (rstrip_nl raw) st)
    = py_last_n 500 (logs st ++ [stamp ts (rstrip_nl raw)]) /\
  (exists n, raw = rstrip_nl raw +:+ newlines n) /\
  ends_with_newline (stamp ts (rstrip_nl raw)) = false /\
  (ends_with_newline raw = false -> rstrip_nl raw = raw).
Proof.
  split; [reflexivity|]. split; [|split].
  - destruct (rstrip_nl_split raw) as (n & Hn & _). now exists n.
  - apply stamp_no_newline, rstrip_nl_no_newline.
  - apply rstrip_nl_fixed.
Qed.

(** ** The log lines on the screen *)

Lemma py_slice_from_last {A} (m : Z) (l : list A) :
  0 < m -> py_slice_from (- m) l = py_last_n (Z.to_nat m) l.
Proof.
  intros Hm. unfold py_slice_from, py_last_n, len.
  destruct (Z.ltb_spec (- m) 0) as [_|?]; [|lia].
  f_equal. lia.
Qed.

Lemma py_slice_from_zero {A} (l : list A) : py_slice_from 0 l = l.
Proof.
  unfold py_slice_from, len. cbn.
  now replace (Z.to_nat (Z.min 0 (Z.of_nat (length l)))) with 0%nat by lia.
Qed.

Lemma py_slice_from_drop {A} (k : Z) (l : list A) :
  0 <= k -> py_slice_from k l = drop (Z.to_nat k) l.
Proof.
  intros Hk. unfold py_slice_from, len.
  destruct (Z.ltb_spec k 0) as [?|_]; [lia|].
  destruct (Z.le_gt_cases k (Z.of_nat (length l))) as [Hle|Hgt].
  - now rewrite Z.min_l by lia.
  - rewrite Z.min_r by lia. rewrite Nat2Z.id.
    rewrite !drop_ge by lia. reflexivity.
Qed.

Lemma draw_logs_y_eq h :
  draw_logs_y (draw_start_y h) = Z.max 1 ((h - 29) / 2) + 30.
Proof.
  unfold draw_logs_y, draw_start_y, draw_total_lines.
  change (len fields_order) with 12. change (len toggle_order) with 10.
  change (12 + 10 + 7) with 29. cbv zeta. lia.
Qed.

(** X20. The log lines that [draw] selects when it gets to them, by the
    height [h] of the screen; [y] is the row it has reached from [start_y].
    With 30 rows or fewer the status line, on the row before [y], is below
    the screen, so these are heights at which the log lines are not reached.
    From 36 rows on there is room for at least one line, the lines are the
    last [max_logs] of the buffer, and they end above the last two rows.
    With 34 or 35 rows [max_logs] is 0 and the slice [logs[-0:]] is the whole
    buffer. With 31 to 33 rows [max_logs] is negative and the slice only
    drops that many lines from the front. *)
Theorem draw_logs_by_height (h y : Z) (st : UIState) :
  y = draw_logs_y (draw_start_y h) ->
  (h <= 30 -> h <= y - 1) /\
  (36 <= h ->
   1 <= draw_max_logs h y /\
   draw_logs h y st = py_last_n (Z.to_nat (draw_max_logs h y)) (logs st) /\
   y + len (draw_logs h y st) <= h - 2) /\
  (34 <= h <= 35 ->
   draw_max_logs h y = 0 /\ draw_logs h y st = logs st) /\
  (31 <= h <= 33 ->
   draw_max_logs h y < 0 /\
   draw_logs h y st = drop (Z.to_nat (- draw_max_logs h y)) (logs st)).
Proof.
  intros Hy. rewrite draw_logs_y_eq in Hy.
  pose proof (Z.div_mod (h - 29) 2 ltac:(lia)) as Hd.
  pose proof (Z.mod_pos_bound (h - 29) 2 ltac:(lia)) as Hd'.
  unfold draw_logs, draw_max_logs.
  split; [|split; [|split]]; intros Hh.
  - lia.
  - assert (H1 : 1 <= h - y - 2) by lia.
    split; [exact H1|].
    rewrite py_slice_from_last by lia.
    split; [reflexivity|].
    pose proof (py_last_n_length (Z.to_nat (h - y - 2)) (logs st)).
    unfold len. lia.
  - assert (H0 : h - y - 2 = 0) by lia.
    split; [exact H0|]. rewrite H0. apply py_slice_from_zero.
  - assert (Hneg : h - y - 2 < 0) by lia.
    split; [exact Hneg|]. apply py_slice_from_drop. lia.
Qed.

Lemma draw_logs_by_height_witness :
  1 <= draw_max_logs 40 35 /\
  draw_logs 40 35 live_state
    = py_last_n (Z.to_nat (draw_max_logs 40 35)) (logs live_state) /\
  35 + len (draw_logs 40 35 live_state) <= 40 - 2.
Proof.
  refine (proj1 (proj2 (draw_logs_by_height 40 35 live_state _)) _).
  - reflexivity.
  - lia.
Defined.

(** X21. The colour pair of the background tells the theme and the mode
    apart: the six combinations have six different pairs, 6 to 8 under the
    dark theme and 1 to 3 under the light one. *)
Theorem bg_pair_distinct (st1 st2 : UIState) :
  (_bg_pair st1 = _bg_pair st2 <->
   theme_dark st1 = theme_dark st2 /\ mode st1 = mode st2) /\
  (if theme_dark st1 then 6 <= _bg_pair st1 <= 8 else 1 <= _bg_pair st1 <= 3).
Proof.
  unfold _bg_pair. split.
  - split.
    + destruct (theme_dark st1), (theme_dark st2), (mode st1), (mode st2);
        intros H; try discriminate H; split; reflexivity.
    + intros [-> ->]. reflexivity.
  - destruct (theme_dark st1), (mode st1); lia.
Qed.

(** ** The initial fields *)

Lemma seeded_lookup (e : gmap string string) (k a : string) :
  is_Some (e !! k) ->
  (if unset k e then <[k := a]> e else e) !! k
  = Some (match e !! k with
          | Some v => if py_truthy v then v else a
          | None => a
          end).
Proof.
  intros [v Hv]. unfold unset. rewrite Hv.
  destruct (py_truthy v); cbn; [exact Hv|apply lookup_insert_eq].
Qed.

(** X22. The initial fields. SERIAL_NUMBER and DOWNLOAD_URL start as the
    environment variable of that name when it is set and non-empty, and as
    the detected value otherwise. Every other field starts as its environment
    variable whenever that is set, even to the empty string, which then
    replaces the built-in default. *)
Theorem init_fields_seeded (w : World) :
  let seeded k detected :=
    match os_environ w !! k with
    | Some v => if py_truthy v then v else detected
    | None => detected
    end in
  env (UIState_init w) !! "SERIAL_NUMBER"
    = Some (seeded "SERIAL_NUMBER" (detect_serial w)) /\
  env (UIState_init w) !! "DOWNLOAD_URL"
    = Some (seeded "DOWNLOAD_URL" (detect_download_url_from_sh w)) /\
  (forall k v, k <> "SERIAL_NUMBER" -> k <> "DOWNLOAD_URL" ->
     In k (map fst fields_order) ->
     os_environ w !! k = Some v ->
     env (UIState_init w) !! k = Some v).
Proof.
  intros seeded. subst seeded. cbv beta.
  unfold UIState_init. cbn [env].
  match goal with
  | |- context [list_to_map ?l] => set (e0 := list_to_map l : gmap string string)
  end.
  assert (Hsn : e0 !! "SERIAL_NUMBER" = Some (environ_get w "SERIAL_NUMBER" ""))
    by (subst e0; apply elem_of_list_to_map_1;
        [apply (bool_decide_unpack _); vm_compute; reflexivity
        |cbn; repeat (first [left; reflexivity|right])]).
  assert (Hurl : e0 !! "DOWNLOAD_URL" = Some (environ_get w "DOWNLOAD_URL" ""))
    by (subst e0; apply elem_of_list_to_map_1;
        [apply (bool_decide_unpack _); vm_compute; reflexivity
        |cbn; repeat (first [left; reflexivity|right])]).
  split; [|split].
  - destruct (unset "DOWNLOAD_URL" _) eqn:Hu;
      [rewrite lookup_insert_ne by discriminate|];
      (rewrite seeded_lookup by (rewrite Hsn; eauto));
      rewrite Hsn; unfold environ_get;
      destruct (os_environ w !! "SERIAL_NUMBER") as [v|]; reflexivity.
  - set (e1 := if unset "SERIAL_NUMBER" e0 then _ else e0).
    assert (H1 : e1 !! "DOWNLOAD_URL" = e0 !! "DOWNLOAD_URL")
      by (subst e1; destruct (unset "SERIAL_NUMBER" e0);
          [now rewrite lookup_insert_ne by discriminate|reflexivity]).
    rewrite seeded_lookup by (rewrite H1, Hurl; eauto).
    rewrite H1, Hurl. unfold environ_get.
    destruct (os_environ w !! "DOWNLOAD_URL") as [v|]; reflexivity.
  - intros k v Hsn' Hurl' Hk Hv.
    assert (He0 : e0 !! k = Some v).
    { subst e0. apply elem_of_list_to_map_1;
        [apply (bool_decide_unpack _); vm_compute; reflexivity|].
      cbn in Hk. unfold environ_get.
      repeat (destruct Hk as [<-|Hk];
              [rewrite ?Hv; cbn;
               first [congruence
                     |apply list_elem_of_In; cbn; tauto]|]).
      contradiction. }
    repeat match goal with
           | |- (if ?c then _ else _) !! _ = _ => destruct c
           | |- <[_ := _]> _ !! _ = _ => rewrite lookup_insert_ne by congruence
           end; exact He0.
Qed.

(** ** Detection of the serial number *)

Section Detection.

Variables (strip lower upper : string -> string).

Lemma serial_line_has_value (line : string) :
  String.prefix "SERIAL_NUMBER=" line = true ->
  is_Some (Detect.after_first "=" line).
Proof.
  intros H.
  do 14 (destruct line as [|? line]; [discriminate H|];
         cbn [String.prefix] in H;
         match type of H with
         | (if ?d then _ else _) = true => destruct d; [subst|discriminate H]
         end).
  cbn. now eexists.
Qed.

Lemma scan_product_id_app (pre post : list string) :
  Detect.scan_product_id strip (pre ++ post)
  = match Detect.scan_product_id strip pre with
    | Some v => Some v
    | None => Detect.scan_product_id strip post
    end.
Proof.
  induction pre as [|line pre IH]; [reflexivity|].
  cbn [app Detect.scan_product_id].
  destruct (negb (py_truthy (strip line)) || String.prefix "#" (strip line));
    [exact IH|].
  destruct (String.prefix "SERIAL_NUMBER=" (strip line)) eqn:Hp; [|exact IH].
  destruct (serial_line_has_value _ Hp) as [v ->].
  destruct (py_truthy (Detect.strip_quotes (strip v))); [reflexivity|exact IH].
Qed.

Lemma scan_cpuinfo_app (pre post : list string) :
  Detect.scan_cpuinfo strip lower (pre ++ post)
  = match Detect.scan_cpuinfo strip lower pre with
    | Some v => Some v
    | None => Detect.scan_cpuinfo strip lower post
    end.
Proof.
  induction pre as [|line pre IH]; [reflexivity|].
  cbn [app Detect.scan_cpuinfo].
  destruct (String.prefix "serial" (lower line)); cbn [andb]; [|exact IH].
  destruct (Detect.after_first ":" line) as [v|] eqn:Ha.
  - rewrite bool_decide_eq_true_2 by eauto.
    destruct (py_truthy (strip v)); [reflexivity|exact IH].
  - rewrite bool_decide_eq_false_2 by (intros [? ?]; discriminate). exact IH.
Qed.

(** X23. Both scanning loops return the value of the first line that has
    one: the scan of a file in two parts is the scan of the first part if it
    finds a value, and the scan of the second part otherwise. A comment, a
    line of another key or a line with an empty value does not end the
    scan. *)
Theorem scans_take_first_value (pre post : list string) :
  Detect.scan_product_id strip (pre ++ post)
  = match Detect.scan_product_id strip pre with
    | Some v => Some v
    | None => Detect.scan_product_id strip post
    end /\
  Detect.scan_cpuinfo strip lower (pre ++ post)
  = match Detect.scan_cpuinfo strip lower pre with
    | Some v => Some v
    | None => Detect.scan_cpuinfo strip lower post
    end.
Proof. split; [apply scan_product_id_app|apply scan_cpuinfo_app]. Qed.

Lemma truthy_nonempty (s : string) : py_truthy s = true -> s <> "".
Proof. intros H ->. discriminate H. Qed.

Lemma scan_product_id_value lines v :
  Detect.scan_product_id strip lines = Some v ->
  py_truthy v = true /\ exists t, v = Detect.strip_quotes t.
Proof.
  induction lines as [|line rest IH]; [discriminate|].
  cbn [Detect.scan_product_id].
  destruct (negb (py_truthy (strip line)) || String.prefix "#" (strip line));
    [exact IH|].
  destruct (String.prefix "SERIAL_NUMBER=" (strip line)); [|exact IH].
  destruct (Detect.after_first "=" (strip line)) as [t|]; [|discriminate].
  destruct (py_truthy (Detect.strip_quotes (strip t))) eqn:Ht; [|exact IH].
  intros H. inversion H; subst. split; [exact Ht|now eexists].
Qed.

Lemma scan_cpuinfo_value lines v :
  Detect.scan_cpuinfo strip lower lines = Some v -> py_truthy v = true.
Proof.
  induction lines as [|line rest IH]; [discriminate|].
  cbn [Detect.scan_cpuinfo].
  destruct (String.prefix "serial" (lower line)
            && bool_decide (is_Some (Detect.after_first ":" line))); [|exact IH].
  destruct (Detect.after_first ":" line) as [t|]; [|discriminate].
  destruct (py_truthy (strip t)) eqn:Ht; [|exact IH].
  intros H. now inversion H; subst.
Qed.

Lemma read_product_serial_value content v :
  Detect.read_product_serial strip upper content = Some v ->
  py_truthy v = true /\ upper v <> "UNKNOWN".
Proof.
  unfold Detect.read_product_serial. destruct content as [text|]; [|discriminate].
  destruct (py_truthy (strip text)) eqn:Ht; cbn [andb]; [|discriminate].
  destruct (String.eqb_spec (upper (strip text)) "UNKNOWN"); cbn; [discriminate|].
  intros H. inversion H; subst. now split.
Qed.

Lemma read_environ_value e v :
  Detect.read_environ strip e = Some v -> py_truthy v = true.
Proof.
  unfold Detect.read_environ.
  destruct (py_truthy (strip (default "" e))) eqn:Ht; [|discriminate].
  intros H. now inversion H; subst.
Qed.

(** X24. [detect_serial] tries the product file, the DMI serial, the CPU
    information and the environment in this order and returns the first
    value found: a later source is used only when all the earlier ones have
    none. It returns the empty text exactly when none of the four has a
    value, and it never returns a DMI serial whose upper-case form is
    UNKNOWN. *)
Theorem detect_serial_first_source (host : Detect.Host) :
  let a := Detect.scan_product_id strip (Detect.product_id host) in
  let b := Detect.read_product_serial strip upper (Detect.product_serial host) in
  let c := Detect.scan_cpuinfo strip lower (Detect.cpuinfo host) in
  let d := Detect.read_environ strip (Detect.environ_serial host) in
  let r := Detect.detect_serial strip lower upper host in
  (forall v, a = Some v -> r = v) /\
  (forall v, a = None -> b = Some v -> r = v /\ upper v <> "UNKNOWN") /\
  (forall v, a = None -> b = None -> c = Some v -> r = v) /\
  (forall v, a = None -> b = None -> c = None -> d = Some v -> r = v) /\
  (r = "" <-> a = None /\ b = None /\ c = None /\ d = None).
Proof.
  intros a b c d r. subst r. unfold Detect.detect_serial.
  fold a b c d.
  pose proof (scan_product_id_value (Detect.product_id host)) as Ha.
  pose proof (read_product_serial_value (Detect.product_serial host)) as Hb.
  pose proof (scan_cpuinfo_value (Detect.cpuinfo host)) as Hc.
  pose proof (read_environ_value (Detect.environ_serial host)) as Hd.
  fold a in Ha. fold b in Hb. fold c in Hc. fold d in Hd.
  clearbody a b c d.
  split; [|split; [|split; [|split]]].
  - intros v ->. reflexivity.
  - intros v -> ->. split; [reflexivity|]. now apply (Hb v).
  - intros v -> -> ->. reflexivity.
  - intros v -> -> -> ->. reflexivity.
  - split.
    + destruct a as [v|]; [intros ->; now destruct (Ha "" eq_refl)|].
      destruct b as [v|]; [intros ->; now destruct (Hb "" eq_refl)|].
      destruct c as [v|]; [intros ->; now pose proof (Hc "" eq_refl)|].
      destruct d as [v|]; [intros ->; now pose proof (Hd "" eq_refl)|].
      auto.
    + intros (-> & -> & -> & ->). reflexivity.
Qed.

Lemma rstrip_quotes_idem (s : string) :
  Detect.rstrip_quotes (Detect.rstrip_quotes s) = Detect.rstrip_quotes s.
Proof.
  induction s as [|c r IH]; [reflexivity|].
  cbn [Detect.rstrip_quotes].
  destruct (Detect.rstrip_quotes r) as [|d r'] eqn:Hr.
  - destruct (Detect.is_quote c) eqn:Hq; [reflexivity|].
    cbn [Detect.rstrip_quotes]. now rewrite Hq.
  - cbn [Detect.rstrip_quotes] in *. now rewrite IH.
Qed.

Lemma lstrip_quotes_length (s : string) :
  (String.length (Detect.lstrip_quotes s) <= String.length s)%nat.
Proof.
  induction s as [|c r IH]; [reflexivity|].
  cbn [Detect.lstrip_quotes]. destruct (Detect.is_quote c); cbn; lia.
Qed.

Lemma lstrip_quotes_rstrip (t : string) :
  Detect.lstrip_quotes t = t ->
  Detect.lstrip_quotes (Detect.rstrip_quotes t) = Detect.rstrip_quotes t.
Proof.
  destruct t as [|c r]; [reflexivity|].
  cbn [Detect.lstrip_quotes]. intros H.
  assert (Hq : Detect.is_quote c = false).
  { destruct (Detect.is_quote c); [|reflexivity].
    pose proof (lstrip_quotes_length r) as Hl. rewrite H in Hl. cbn in Hl. lia. }
  cbn [Detect.rstrip_quotes].
  destruct (Detect.rstrip_quotes r); rewrite ?Hq; cbn [Detect.lstrip_quotes];
    now rewrite Hq.
Qed.

Lemma lstrip_quotes_idem (s : string) :
  Detect.lstrip_quotes (Detect.lstrip_quotes s) = Detect.lstrip_quotes s.
Proof.
  induction s as [|c r IH]; [reflexivity|].
  cbn [Detect.lstrip_quotes]. destruct (Detect.is_quote c) eqn:Hq; [exact IH|].
  cbn [Detect.lstrip_quotes]. now rewrite Hq.
Qed.

Lemma strip_quotes_idem (s : string) :
  Detect.strip_quotes (Detect.strip_quotes s) = Detect.strip_quotes s.
Proof.
  unfold Detect.strip_quotes.
  rewrite (lstrip_quotes_rstrip (Detect.lstrip_quotes s))
    by apply lstrip_quotes_idem.
  apply rstrip_quotes_idem.
Qed.

(** X25. A serial number taken from the product file is never empty and
    carries no quote character at either end: stripping the quotes again
    gives the same text. *)
Theorem product_id_value_unquoted (lines : list string) (v : string) :
  Detect.scan_product_id strip lines = Some v ->
  v <> "" /\ Detect.strip_quotes v = v.
Proof.
  intros H. destruct (scan_product_id_value lines v H) as (Ht & t & ->).
  split; [now apply truthy_nonempty|apply strip_quotes_idem].
Qed.

End Detection.

Lemma product_id_value_unquoted_witness :
  "NX-1" <> "" /\ Detect.strip_quotes "NX-1" = "NX-1".
Proof.
  apply (product_id_value_unquoted Detect.lstrip_blanks
           ["# id"; "SERIAL_NUMBER="; " SERIAL_NUMBER='NX-1'"]).
  vm_compute. reflexivity.
Defined.

(** The sample host: the empty value in the product file is passed over and
    the DMI serial is taken. *)
Example detect_serial_sample :
  Detect.detect_serial Detect.lstrip_blanks id id Detect.sample_host = "NX-42".
Proof. vm_compute. reflexivity. Qed.

(** ** From the warning to the start *)




(** ** The edit popup *)

(** X27. The box of the edit popup is five rows high and lies within the
    rows of the screen exactly when the screen has six rows or more. On a
    screen of five columns or more it is 1 to 80 columns wide, starts at
    column 2 or later and ends two columns or more before the right
    edge. *)
Theorem popup_box_fits (h w : Z) :
  (1 <= popup_box_y h) /\
  (popup_box_y h + popup_box_h <= h <-> 6 <= h) /\
  (5 <= w ->
   2 <= popup_box_x w /\ 1 <= popup_box_w w <= 80 /\
   popup_box_x w + popup_box_w w <= w - 2).
Proof.
  unfold popup_box_y, popup_box_x, popup_box_w, popup_box_h.
  pose proof (Z.div_mod (h - 5) 2 ltac:(lia)) as Hh.
  pose proof (Z.mod_pos_bound (h - 5) 2 ltac:(lia)) as Hh'.
  split; [lia|]. split; [split; lia|].
  intros Hw.
  pose proof (Z.div_mod (w - Z.min 80 (w - 4)) 2 ltac:(lia)) as Hd.
  pose proof (Z.mod_pos_bound (w - Z.min 80 (w - 4)) 2 ltac:(lia)) as Hd'.
  lia.
Qed.

Lemma popup_box_fits_witness :
  2 <= popup_box_x 100 /\ 1 <= popup_box_w 100 <= 80 /\
  popup_box_x 100 + popup_box_w 100 <= 100 - 2.
Proof.
  apply (proj2 (proj2 (popup_box_fits 24 100))). lia.
Defined.

(** Backspace on a text that ends with a two-byte character (here e with
    an acute accent, bytes 195 and 169) removes both bytes. *)
Example py_drop_last_two_bytes :
  py_drop_last (String "a" (String (ascii_of_nat 195) (String (ascii_of_nat 169) "")))
  = "a".
Proof. reflexivity. Qed.
